(** * World2: the DYNAMO primitives and the simulation engine of world2.cpp

    A shallow embedding of [dynamo::clip], [dynamo::tabhl], [dynamo::table]
    and of [world2::world] (its [constants], [variables], [run_complete] and
    [tick]), followed by the properties of the engine.  The class [graph]
    that draws the runs is embedded up to the texts that [snprintf] formats
    (the labels of the two axes).

    The C++ type [double] is an interface [Double]; the program is its
    instance [binary64]: IEEE 754 binary64, the primitive floats of Rocq,
    every operation rounded to nearest as the hardware does it.  What does
    not depend on the arithmetic is stated for every instance. *)

From Stdlib Require Import ZArith List String Bool Lia.
From Stdlib Require Import QArith.
From Stdlib Require Import Floats.
Import ListNotations.

Set Implicit Arguments.

(** ** The arithmetic of [double] *)

(** [size_t] is a 64-bit unsigned integer, modelled as [Z] with its
    wrap-around written out. *)
Definition SIZE_MAX1 : Z := 2 ^ 64.

Definition wrap_size_t (z : Z) : Z := z mod SIZE_MAX1.

Class Double (D : Type) : Type := {
  lit : Q -> D;                  (* a decimal literal of the source *)
  dadd : D -> D -> D;
  dsub : D -> D -> D;
  dmul : D -> D -> D;
  ddiv : D -> D -> D;
  dneg : D -> D;
  dlt : D -> D -> bool;          (* a < b *)
  dge : D -> D -> bool;          (* a >= b *)
  to_size_t : D -> option Z;     (* static_cast<size_t>(d); None when the
                                    truncated value does not fit (undefined
                                    behaviour in C++) *)
  of_size_t : Z -> D             (* the conversion size_t -> double *)
}.

Declare Scope double_scope.
Delimit Scope double_scope with dbl.
Notation "x + y" := (dadd x y) : double_scope.
Notation "x - y" := (dsub x y) : double_scope.
Notation "x * y" := (dmul x y) : double_scope.
Notation "x / y" := (ddiv x y) : double_scope.
Notation "- x" := (dneg x) : double_scope.
Notation "x <? y" := (dlt x y) : double_scope.
Notation "x >? y" := (dlt y x) : double_scope.
Notation "x >=? y" := (dge x y) : double_scope.

(** The two facts about [<] that the engine's case analyses rely on; they
    hold for IEEE comparison (NaN compares false with everything) and for
    the rationals. *)
Class DoubleOrder (D : Type) {DD : Double D} : Prop := {
  dlt_irrefl : forall x : D, dlt x x = false;
  dlt_trans : forall x y z : D, dlt x y = true -> dlt y z = true -> dlt x z = true
}.

Arguments DoubleOrder D {DD}.

(** *** IEEE 754 binary64 *)

Module Binary64.

(** The integer [z] rounded to the nearest double. *)
Definition of_Z (z : Z) : float :=
  SF2Prim (binary_normalize prec emax z 0 false).

(** A decimal literal: both parts of the fraction are exact doubles for
    every literal of the program, so the one rounded division gives the
    double nearest to the literal. *)
Definition of_Q (q : Q) : float :=
  PrimFloat.div (of_Z (Qnum q)) (of_Z (Zpos (Qden q))).

(** Truncation toward zero of a finite double. *)
Definition trunc (f : float) : option Z :=
  match Prim2SF f with
  | S754_zero _ => Some 0%Z
  | S754_finite s m e =>
      let v := (if 0 <=? e then Zpos m * 2 ^ e else Zpos m / 2 ^ (- e))%Z in
      Some (if s then - v else v)%Z
  | S754_infinity _ | S754_nan => None
  end.

Definition cast_size_t (f : float) : option Z :=
  match trunc f with
  | Some v => if ((0 <=? v) && (v <? SIZE_MAX1))%Z then Some v else None
  | None => None
  end.

End Binary64.

#[export] Instance binary64 : Double float := {|
  lit := Binary64.of_Q;
  dadd := PrimFloat.add;
  dsub := PrimFloat.sub;
  dmul := PrimFloat.mul;
  ddiv := PrimFloat.div;
  dneg := PrimFloat.opp;
  dlt := PrimFloat.ltb;
  dge := fun a b => PrimFloat.leb b a;
  to_size_t := Binary64.cast_size_t;
  of_size_t := Binary64.of_Z
|}.

(** ** Outcomes of a call *)

(** The two [std::runtime_error]s the program throws. *)
Inductive error : Set :=
| DomainSizeError
| DomainRangeError.

Definition what (e : error) : string :=
  match e with
  | DomainSizeError => "tabhl() size of given 'ytbl' does not match given xrange"
  | DomainRangeError => "table() given 'x' out of range"
  end.

(** A call returns a value, throws, or has behaviour that the C++ standard
    leaves undefined (a float-to-integer conversion out of range, a vector
    read out of bounds). *)
Inductive result (A : Type) : Type :=
| Value (a : A)
| Throw (e : error)
| Undefined.

Arguments Value {A} a.
Arguments Throw {A} e.
Arguments Undefined {A}.

Definition bind {A B : Type} (m : result A) (f : A -> result B) : result B :=
  match m with
  | Value a => f a
  | Throw e => Throw e
  | Undefined => Undefined
  end.

Notation "x <- m ;; k" := (bind m (fun x => k))
  (at level 61, m at next level, right associativity).

Definition defined {A : Type} (o : option A) : result A :=
  match o with
  | Some a => Value a
  | None => Undefined
  end.

(** ** namespace dynamo *)

Module dynamo.
Section Dynamo.

Context {D : Type} {DD : Double D}.
Local Open Scope double_scope.

(** [ytbl.size()] *)
Definition size (ytbl : list D) : Z := Z.of_nat (List.length ytbl).

(** [ytbl[i]]: a read outside the vector is undefined. *)
Definition at_ (ytbl : list D) (i : Z) : result D :=
  if ((0 <=? i) && (i <? size ytbl))%Z
  then defined (nth_error ytbl (Z.to_nat i))
  else Undefined.

(** [ytbl.back()] *)
Definition back (ytbl : list D) : result D :=
  at_ ytbl (size ytbl - 1).

(** simulate DYNAMO CLIP() function *)
Definition clip (a b c d : D) : D :=
  if c >=? d then a else b.

(** The early returns of [tabhl] for [x] beyond the ends of the domain;
    [None] when control falls through to the interpolation. *)
Definition extreme (ytbl : list D) (x xstart xend : D) : option (result D) :=
  if xstart <? xend then
    if x <? xstart then Some (at_ ytbl 0)
    else if x >? xend then Some (back ytbl)
    else None
  else
    if x <? xend then Some (back ytbl)
    else if x >? xstart then Some (at_ ytbl 0)
    else None.

(** simulate DYNAMO TABHL() function *)
Definition tabhl (ytbl : list D) (x xstart xend xstep : D) : result D :=
  range <- defined (to_size_t ((xend - xstart) / xstep + lit 1)) ;;
  if negb (size ytbl =? range)%Z then Throw DomainSizeError
  else
    match extreme ytbl x xstart xend with
    | Some r => r
    | None =>
        i <- defined (to_size_t ((x - xstart) / xstep)) ;;
        if (i =? wrap_size_t (range - 1))%Z then at_ ytbl i
        else
          y0 <- at_ ytbl i ;;
          y1 <- at_ ytbl (wrap_size_t (i + 1)) ;;
          Value (y0 + (x - xstart - (xstep * of_size_t i)) * (y1 - y0) / xstep)
    end.

(** The test of [table] on [x]. *)
Definition out_of_range (x xstart xend : D) : bool :=
  if xstart <? xend then (x <? xstart) || (x >? xend)
  else (x <? xend) || (x >? xstart).

(** simulate DYNAMO TABLE() function *)
Definition table (ytbl : list D) (x xstart xend xstep : D) : result D :=
  if out_of_range x xstart xend then Throw DomainRangeError
  else tabhl ytbl x xstart xend xstep.

End Dynamo.
End dynamo.

(** ** namespace world2 *)

Module world2.
Section World.

Context {D : Type} {DD : Double D}.
Local Open Scope double_scope.

(** [world::constants]; numbers in square brackets are the line numbers of
    Forrester's DYNAMO code, as in the source.  The member [time] is
    [time0] here, [variables] has a member of that name too. *)
Record constants : Type := {
  brn : D;      (*[2.2]  birth rate normal *)
  brn1 : D;     (*[2.3]  birth rate normal no. 1 *)
  ciafi : D;    (*[35.2] capital-investment-in-agriculture-fraction initial *)
  ciafn : D;    (*[22.1] capital-investment-in-agriculture fraction normal *)
  ciaft : D;    (*[35.3] capital-investment-in-agriculture-fraction adjustment time *)
  cidn : D;     (*[27.1] capital-investment discard normal *)
  cidn1 : D;    (*[27.2] capital-investment discard normal no. 1 *)
  cign : D;     (*[25.1] capital-investment generation normal *)
  cign1 : D;    (*[25.2] capital-investment generation normal no. 1 *)
  cii : D;      (*[24.2] capital-investment, initial *)
  drn : D;      (*[10.2] death rate normal *)
  drn1 : D;     (*[10.3] death rate normal no. 1 *)
  ecirn : D;    (*[4.1]  effective-capital-investment ratio normal *)
  fc : D;       (*[19.1] food coefficient *)
  fc1 : D;      (*[19.2] food coefficient no. 1 *)
  fn : D;       (*[19.3] food normal *)
  la : D;       (*[15.1] land area *)
  nri : D;      (*[8.2]  natural resources, initial *)
  nrun : D;     (*[9.1]  natural-resource usage normal *)
  nrun1 : D;    (*[9.2]  natural-resource usage normal no. 1 *)
  pdn : D;      (*[15.2] population density normal *)
  pi : D;       (*[1.1]  population, initial *)
  poli : D;     (*[30.2] pollution, initial *)
  poln : D;     (*[31.1] pollution normal *)
  poln1 : D;    (*[31.2] pollution normal no. 1 *)
  pols : D;     (*[29.1] pollution standard *)
  qls : D;      (*[37.1] quality-of-life standard *)
  swt1 : D;     (*[2.4]  switch time no. 1 for brn *)
  swt2 : D;     (*[9.3]  switch time no. 2 for nrun *)
  swt3 : D;     (*[10.4] switch time no. 3 for drn *)
  swt4 : D;     (*[25.3] switch time no. 4 for cign *)
  swt5 : D;     (*[27.3] switch time no. 5 for cidn *)
  swt6 : D;     (*[31.3] switch time no. 6 for poln *)
  swt7 : D;     (*[19.4] switch time no. 7 for fc *)
  time0 : D;    (*[43.7] calendar time *)
  dt : D;       (*[43.5] delta time *)
  endtime : D   (* when time has this value the run should terminate *)
}.

(** The default member initialisers of [constants]. *)
Definition default_constants : constants := {|
  brn := lit 0.04; brn1 := lit 0.04; ciafi := lit 0.2; ciafn := lit 0.3;
  ciaft := lit 15; cidn := lit 0.025; cidn1 := lit 0.025; cign := lit 0.05;
  cign1 := lit 0.05; cii := lit 0.4E9; drn := lit 0.028; drn1 := lit 0.028;
  ecirn := lit 1; fc := lit 1; fc1 := lit 1; fn := lit 1; la := lit 135E6;
  nri := lit 900E9; nrun := lit 1; nrun1 := lit 1; pdn := lit 26.5;
  pi := lit 1.65E9; poli := lit 0.2E9; poln := lit 1; poln1 := lit 1;
  pols := lit 3.6E9; qls := lit 1;
  swt1 := lit 1970; swt2 := lit 1970; swt3 := lit 1970; swt4 := lit 1970;
  swt5 := lit 1970; swt6 := lit 1970; swt7 := lit 1970;
  time0 := lit 1900; dt := lit 0.2; endtime := lit 2100
|}.

(** [world::variables] *)
Record variables : Type := {
  (* levels *)
  ci : D;       (* capital-investment *)
  ciaf : D;     (* capital-investment-in-agriculture fraction *)
  nr : D;       (* natural resources *)
  p : D;        (* population *)
  pol : D;      (* pollution *)
  (* rates *)
  br : D;       (* birth rate *)
  cid : D;      (* capital-investment discard *)
  cig : D;      (* capital-investment generation *)
  dr : D;       (* death rate *)
  nrur : D;     (* natural-resource-usage rate *)
  pola : D;     (* pollution absorption *)
  polg : D;     (* pollution generation *)
  (* auxiliaries *)
  brcm : D;     (* birth-rate-from-crowding multiplier *)
  brfm : D;     (* birth-rate-from-food multiplier *)
  brmm : D;     (* birth-rate-from-material multiplier *)
  brpm : D;     (* birth-rate-from-pollution multiplier *)
  cfifr : D;    (* capital fraction indicated by food ratio *)
  cim : D;      (* capital-investment multiplier *)
  ciqr : D;     (* capital-investment-from-quality ratio *)
  cir : D;      (* capital-investment ratio *)
  cira : D;     (* capital-investment ratio in agriculture *)
  cr : D;       (* crowding ratio *)
  drcm : D;     (* death-rate-from-crowding multiplier *)
  drfm : D;     (* death-rate-from-food multiplier *)
  drmm : D;     (* death-rate-from-material multiplier *)
  drpm : D;     (* death-rate-from-pollution multiplier *)
  ecir : D;     (* effective-capital-investment ratio *)
  fcm : D;      (* food-from-crowding multiplier *)
  fpci : D;     (* food potential from capital investment *)
  fpm : D;      (* food-from-pollution multiplier *)
  fr : D;       (* food ratio *)
  msl : D;      (* material standard of living *)
  nrem : D;     (* natural-resource-extraction multiplier *)
  nrfr : D;     (* natural-resource fraction remaining *)
  nrmm : D;     (* natural-resource-from-material multiplier *)
  polat : D;    (* pollution-absorption time *)
  polcm : D;    (* pollution-from-capital multiplier *)
  polr : D;     (* pollution ratio *)
  ql : D;       (* quality of life *)
  qlc : D;      (* quality of life from crowding *)
  qlf : D;      (* quality of life from food *)
  qlm : D;      (* quality of life from material *)
  qlp : D;      (* quality of life from pollution *)
  time : D      (* calendar time *)
}.

(** A value-initialised [variables]: every member is [0]. *)
Definition variables_zero : variables :=
  let z := lit 0 in
  Build_variables z z z z z  z z z z z z z
    z z z z z z z z z z z z z z z z z z z z z z z z z z z z z z z  z.

(** [class world]: the constants, the variables of time .J, and whether
    they exist yet. *)
Record world : Type := {
  c : constants;
  j : variables;
  time_j_exists_ : bool
}.

(** [world::world(const constants & c)] *)
Definition construct (cs : constants) : world :=
  {| c := cs; j := variables_zero; time_j_exists_ := false |}.

(** [world::run_complete] *)
Definition run_complete (w : world) : bool :=
  time_j_exists_ w && (time (j w) >? endtime (c w)).

(** *** The lookup tables of [tick]

    Each literal table of [tick] with the domain it is called with, under
    the name of its T card in the DYNAMO listing. *)
Record lookup : Type := {
  ytbl : list D;
  xstart : D;
  xend : D;
  xstep : D
}.

Definition tbl (ys : list Q) (x0 x1 dx : Q) : lookup :=
  {| ytbl := map lit ys; xstart := lit x0; xend := lit x1; xstep := lit dx |}.

Local Open Scope Q_scope.
Definition NREMT  := tbl [0; 0.15; 0.5; 0.85; 1] 0 1 0.25.                               (*[6, 6.1]*)
Definition BRMMT  := tbl [1.2; 1; 0.85; 0.75; 0.7; 0.7] 0 5 1.                           (*[3, 3.1]*)
Definition DRMMT  := tbl [3; 1.8; 1; 0.8; 0.7; 0.6; 0.53; 0.5; 0.5; 0.5; 0.5] 0 5 0.5.   (*[11, 11.1]*)
Definition DRCMT  := tbl [0.9; 1; 1.2; 1.5; 1.9; 3] 0 5 1.                               (*[14, 14.1]*)
Definition BRCMT  := tbl [1.05; 1; 0.9; 0.7; 0.6; 0.55] 0 5 1.                           (*[16, 16.1]*)
Definition FCMT   := tbl [2.4; 1; 0.6; 0.4; 0.3; 0.2] 0 5 1.                             (*[20, 20.1]*)
Definition QLCT   := tbl [2; 1.3; 1; 0.75; 0.55; 0.45; 0.38; 0.3; 0.25; 0.22; 0.2] 0 5 0.5. (*[39, 39.1]*)
Definition CIMT   := tbl [0.1; 1; 1.8; 2.4; 2.8; 3] 0 5 1.                               (*[26, 26.1]*)
Definition FPMT   := tbl [1.02; 0.9; 0.65; 0.35; 0.2; 0.1; 0.05] 0 60 10.                (*[28, 28.1]*)
Definition DRPMT  := tbl [0.92; 1.3; 2; 3.2; 4.8; 6.8; 9.2] 0 60 10.                     (*[12, 12.1]*)
Definition BRPMT  := tbl [1.02; 0.9; 0.7; 0.4; 0.25; 0.15; 0.1] 0 60 10.                 (*[18, 18.1]*)
Definition POLCMT := tbl [0.05; 1; 3; 5.4; 7.4; 8] 0 5 1.                                (*[32, 32.1]*)
Definition POLATT := tbl [0.6; 2.5; 5; 8; 11.5; 15.5; 20] 0 60 10.                       (*[34, 34.1]*)
Definition QLMT   := tbl [0.2; 1; 1.7; 2.3; 2.7; 2.9] 0 5 1.                             (*[38, 38.1]*)
Definition QLPT   := tbl [1.04; 0.85; 0.6; 0.3; 0.15; 0.05; 0.02] 0 60 10.               (*[41, 41.1]*)
Definition NRMMT  := tbl [0; 1; 1.8; 2.4; 2.9; 3.3; 3.6; 3.8; 3.9; 3.95; 4] 0 10 1.      (*[42, 42.1]*)
Definition FPCIT  := tbl [0.5; 1; 1.4; 1.7; 1.9; 2.05; 2.2] 0 6 1.                       (*[21, 21.1]*)
Definition DRFMT  := tbl [30; 3; 2; 1.4; 1; 0.7; 0.6; 0.5; 0.5] 0 2 0.25.                (*[13, 13.1]*)
Definition BRFMT  := tbl [0; 1; 1.6; 1.9; 2] 0 4 1.                                      (*[17, 17.1]*)
Definition CFIFRT := tbl [1; 0.6; 0.3; 0.15; 0.1] 0 2 0.5.                               (*[36, 36.1]*)
Definition QLFT   := tbl [0; 1; 1.8; 2.4; 2.7] 0 4 1.                                    (*[40, 40.1]*)
Definition CIQRT  := tbl [0.7; 0.8; 1; 1.5; 2] 0 2 0.5.                                  (*[43, 43.1]*)
Local Close Scope Q_scope.

(** The 22 lookups of [tick], in the order of the calls. *)
Definition lookups : list lookup :=
  [NREMT; BRMMT; DRMMT; DRCMT; BRCMT; FCMT; QLCT; CIMT; FPMT; DRPMT; BRPMT;
   POLCMT; POLATT; QLMT; QLPT; NRMMT; FPCIT; DRFMT; BRFMT; CFIFRT; QLFT; CIQRT].

Definition tabhl (t : lookup) (x : D) : result D :=
  dynamo.tabhl (ytbl t) x (xstart t) (xend t) (xstep t).

Definition table (t : lookup) (x : D) : result D :=
  dynamo.table (ytbl t) x (xstart t) (xend t) (xstep t).

(** *** [world::tick]

    [tick] builds the local [variables k] in three passes and then stores
    it; the three passes are the three definitions below. *)

(** [variables k;] with its levels and time assigned. *)
Definition with_levels (k_p k_nr k_ci k_pol k_ciaf k_time : D) : variables :=
  let z := lit 0 in
  Build_variables k_ci k_ciaf k_nr k_p k_pol  z z z z z z z
    z z z z z z z z z z z z z z z z z z z z z z z z z z z z z z z  k_time.

(** First pass: the levels at time .K, from the rates of the interval .JK
    held in [j], or the initial state when there is no time .J yet. *)
Definition levels (w : world) : variables :=
  let c := c w in
  let j := j w in
  if time_j_exists_ w then
    with_levels
      (p j + dt c * (br j - dr j))                                    (*[1]*)
      (nr j + dt c * - nrur j)                                        (*[8]*)
      (ci j + dt c * (cig j - cid j))                                 (*[24]*)
      (pol j + dt c * (polg j - pola j))                              (*[30]*)
      (ciaf j + (dt c / ciaft c) * ((cfifr j * ciqr j) - ciaf j))     (*[35]*)
      (time j + dt c)
  else
    with_levels (pi c) (nri c) (cii c) (poli c) (ciafi c) (time0 c).

(** Second pass: the auxiliaries for time .K (reordered for dependencies);
    the rates are still [0]. *)
Definition auxiliaries (c : constants) (k : variables) : result variables :=
  let k_nrfr := nr k / nri c in                                       (*[7]*)
  k_nrem <- table NREMT k_nrfr ;;
  let k_cir := ci k / p k in                                          (*[23]*)
  let k_ecir := k_cir * (lit 1 - ciaf k) * k_nrem / (lit 1 - ciafn c) in (*[5]*)
  let k_msl := k_ecir / ecirn c in                                    (*[4]*)
  k_brmm <- tabhl BRMMT k_msl ;;
  k_drmm <- tabhl DRMMT k_msl ;;
  let k_cr := p k / (la c * pdn c) in                                 (*[15]*)
  k_drcm <- table DRCMT k_cr ;;
  k_brcm <- table BRCMT k_cr ;;
  k_fcm <- table FCMT k_cr ;;
  k_qlc <- table QLCT k_cr ;;
  k_cim <- tabhl CIMT k_msl ;;
  let k_polr := pol k / pols c in                                     (*[29, 29.1]*)
  k_fpm <- table FPMT k_polr ;;
  k_drpm <- table DRPMT k_polr ;;
  k_brpm <- table BRPMT k_polr ;;
  k_polcm <- tabhl POLCMT k_cir ;;
  k_polat <- table POLATT k_polr ;;
  k_qlm <- tabhl QLMT k_msl ;;
  k_qlp <- table QLPT k_polr ;;
  k_nrmm <- tabhl NRMMT k_msl ;;
  let k_cira := k_cir * ciaf k / ciafn c in                           (*[22]*)
  k_fpci <- tabhl FPCIT k_cira ;;
  let k_fr := k_fpci * k_fcm * k_fpm
              * dynamo.clip (fc c) (fc1 c) (swt7 c) (time k) / fn c in (*[19]*)
  k_drfm <- tabhl DRFMT k_fr ;;
  k_brfm <- tabhl BRFMT k_fr ;;
  k_cfifr <- tabhl CFIFRT k_fr ;;
  k_qlf <- tabhl QLFT k_fr ;;
  k_ciqr <- tabhl CIQRT (k_qlm / k_qlf) ;;
  let k_ql := qls c * k_qlm * k_qlc * k_qlf * k_qlp in                (*[37]*)
  Value {|
    ci := ci k; ciaf := ciaf k; nr := nr k; p := p k; pol := pol k;
    br := br k; cid := cid k; cig := cig k; dr := dr k; nrur := nrur k;
    pola := pola k; polg := polg k;
    brcm := k_brcm; brfm := k_brfm; brmm := k_brmm; brpm := k_brpm;
    cfifr := k_cfifr; cim := k_cim; ciqr := k_ciqr; cir := k_cir;
    cira := k_cira; cr := k_cr; drcm := k_drcm; drfm := k_drfm;
    drmm := k_drmm; drpm := k_drpm; ecir := k_ecir; fcm := k_fcm;
    fpci := k_fpci; fpm := k_fpm; fr := k_fr; msl := k_msl; nrem := k_nrem;
    nrfr := k_nrfr; nrmm := k_nrmm; polat := k_polat; polcm := k_polcm;
    polr := k_polr; ql := k_ql; qlc := k_qlc; qlf := k_qlf; qlm := k_qlm;
    qlp := k_qlp;
    time := time k
  |}.

(** Third pass: the seven rate equations for the period .KL, each reading
    the levels and auxiliaries of [k]. *)
Definition rate_br (c : constants) (k : variables) : D :=
  p k * dynamo.clip (brn c) (brn1 c) (swt1 c) (time k)
  * brfm k * brmm k * brcm k * brpm k.                                (*[2, 2.1]*)

Definition rate_nrur (c : constants) (k : variables) : D :=
  p k * dynamo.clip (nrun c) (nrun1 c) (swt2 c) (time k) * nrmm k.    (*[9]*)

Definition rate_dr (c : constants) (k : variables) : D :=
  p k * dynamo.clip (drn c) (drn1 c) (swt3 c) (time k)
  * drmm k * drpm k * drfm k * drcm k.                                (*[10, 10.1]*)

Definition rate_cig (c : constants) (k : variables) : D :=
  p k * cim k * dynamo.clip (cign c) (cign1 c) (swt4 c) (time k).     (*[25]*)

Definition rate_cid (c : constants) (k : variables) : D :=
  ci k * dynamo.clip (cidn c) (cidn1 c) (swt5 c) (time k).            (*[27]*)

Definition rate_polg (c : constants) (k : variables) : D :=
  p k * dynamo.clip (poln c) (poln1 c) (swt6 c) (time k) * polcm k.   (*[31]*)

Definition rate_pola (c : constants) (k : variables) : D :=
  pol k / polat k.                                                    (*[33]*)

Definition rates (c : constants) (k : variables) : variables := {|
  ci := ci k; ciaf := ciaf k; nr := nr k; p := p k; pol := pol k;
  br := rate_br c k; cid := rate_cid c k; cig := rate_cig c k;
  dr := rate_dr c k; nrur := rate_nrur c k; pola := rate_pola c k;
  polg := rate_polg c k;
  brcm := brcm k; brfm := brfm k; brmm := brmm k; brpm := brpm k;
  cfifr := cfifr k; cim := cim k; ciqr := ciqr k; cir := cir k;
  cira := cira k; cr := cr k; drcm := drcm k; drfm := drfm k;
  drmm := drmm k; drpm := drpm k; ecir := ecir k; fcm := fcm k;
  fpci := fpci k; fpm := fpm k; fr := fr k; msl := msl k; nrem := nrem k;
  nrfr := nrfr k; nrmm := nrmm k; polat := polat k; polcm := polcm k;
  polr := polr k; ql := ql k; qlc := qlc k; qlf := qlf k; qlm := qlm k;
  qlp := qlp k;
  time := time k
|}.

(** The variables for time .K that a call of [tick] computes, before it
    touches the members of the engine. *)
Definition compute_k (w : world) : result variables :=
  k <- auxiliaries (c w) (levels w) ;;
  Value (rates (c w) k).

(** [world::tick]: the outcome of the call and the engine after it.  Only
    the last two statements ([j = k; time_j_exists_ = true;]) write to the
    engine, so a call that throws leaves it as it was. *)
Definition tick (w : world) : result variables * world :=
  match compute_k w with
  | Value k =>
      (Value k, {| c := c w; j := k; time_j_exists_ := true |})
  | Throw e => (Throw e, w)
  | Undefined => (Undefined, w)
  end.

(** The engine after [n] calls of [tick], and the outcomes of the calls
    (the last call first). *)
Fixpoint run (n : nat) (w : world) : list (result variables) * world :=
  match n with
  | O => ([], w)
  | S n' =>
      let '(rs, w') := run n' w in
      let '(r, w'') := tick w' in
      (r :: rs, w'')
  end.

(** [k] with [k.time = t], the other members kept. *)
Definition with_time (k : variables) (t : D) : variables :=
  let 'Build_variables v1 v2 v3 v4 v5 v6 v7 v8 v9 v10 v11 v12 v13 v14 v15
    v16 v17 v18 v19 v20 v21 v22 v23 v24 v25 v26 v27 v28 v29 v30 v31 v32 v33
    v34 v35 v36 v37 v38 v39 v40 v41 v42 v43 _ := k in
  Build_variables v1 v2 v3 v4 v5 v6 v7 v8 v9 v10 v11 v12 v13 v14 v15 v16
    v17 v18 v19 v20 v21 v22 v23 v24 v25 v26 v27 v28 v29 v30 v31 v32 v33 v34
    v35 v36 v37 v38 v39 v40 v41 v42 v43 t.

(** [c] with [c.pi = x], with [c.dt = x], with [c.endtime = x]. *)
Definition with_pi (cs : constants) (x : D) : constants :=
  let 'Build_constants c1 c2 c3 c4 c5 c6 c7 c8 c9 c10 c11 c12 c13 c14 c15
    c16 c17 c18 c19 c20 c21 _ c23 c24 c25 c26 c27 c28 c29 c30 c31 c32 c33
    c34 c35 c36 c37 := cs in
  Build_constants c1 c2 c3 c4 c5 c6 c7 c8 c9 c10 c11 c12 c13 c14 c15 c16
    c17 c18 c19 c20 c21 x c23 c24 c25 c26 c27 c28 c29 c30 c31 c32 c33 c34
    c35 c36 c37.

Definition with_dt (cs : constants) (x : D) : constants :=
  let 'Build_constants c1 c2 c3 c4 c5 c6 c7 c8 c9 c10 c11 c12 c13 c14 c15
    c16 c17 c18 c19 c20 c21 c22 c23 c24 c25 c26 c27 c28 c29 c30 c31 c32 c33
    c34 c35 _ c37 := cs in
  Build_constants c1 c2 c3 c4 c5 c6 c7 c8 c9 c10 c11 c12 c13 c14 c15 c16
    c17 c18 c19 c20 c21 c22 c23 c24 c25 c26 c27 c28 c29 c30 c31 c32 c33 c34
    c35 x c37.

Definition with_endtime (cs : constants) (x : D) : constants :=
  let 'Build_constants c1 c2 c3 c4 c5 c6 c7 c8 c9 c10 c11 c12 c13 c14 c15
    c16 c17 c18 c19 c20 c21 c22 c23 c24 c25 c26 c27 c28 c29 c30 c31 c32 c33
    c34 c35 c36 _ := cs in
  Build_constants c1 c2 c3 c4 c5 c6 c7 c8 c9 c10 c11 c12 c13 c14 c15 c16
    c17 c18 c19 c20 c21 c22 c23 c24 c25 c26 c27 c28 c29 c30 c31 c32 c33 c34
    c35 c36 x.

(** The seven rate equations of [tick]. *)
Definition rate_equations : list (constants -> variables -> D) :=
  [rate_br; rate_dr; rate_cig; rate_cid; rate_nrur; rate_polg; rate_pola].

(** The snapshot produced last in a list of outcomes (the last call
    first). *)
Fixpoint last_produced (rs : list (result variables)) : option variables :=
  match rs with
  | [] => None
  | Value k :: _ => Some k
  | _ :: rs' => last_produced rs'
  end.

End World.

Arguments constants D : clear implicits.
Arguments variables D : clear implicits.
Arguments world D : clear implicits.
Arguments lookup D : clear implicits.

End world2.

(** ** The tables of [test()] *)

Module test.
Section Test.

Context {D : Type} {DD : Double D}.

Definition t1 : list D := map lit [1.0; 2.0]%Q.
Definition t2 : list D := map lit [-1.0; 1.0]%Q.
Definition t3 : list D := map lit [1.04; 0.85; 0.6; 0.3; 0.15; 0.05; 0.02]%Q.

End Test.

#[local] Set Warnings "-inexact-float".
#[local] Open Scope float_scope.

(** [DBL_EPSILON] of <cfloat>. *)
Definition DBL_EPSILON : float := 0x1p-52.

(** [test_equal_double] counts a fault unless
    [std::fabs(actual_value - expected_value) < DBL_EPSILON]. *)
Definition test_equal_double (actual_value expected_value : float) : bool :=
  PrimFloat.ltb (PrimFloat.abs (actual_value - expected_value)) DBL_EPSILON.

(** [TEST_EQUAL_DOUBLE(call, expected)] passes: the call returns and the
    value is accepted. *)
Definition passes (call : result float) (expected_value : float) : bool :=
  match call with
  | Value actual_value => test_equal_double actual_value expected_value
  | Throw _ | Undefined => false
  end.

(** The assertions of [test()] on [dynamo::table]. *)
Definition table_assertions : list (result float * float) :=
  let table := dynamo.table (D:=float) in
  [ (table t1 3.0 3.0 4.0 1.0, 1.0);
    (table t1 4.0 3.0 4.0 1.0, 2.0);
    (table t1 3.5 3.0 4.0 1.0, 1.5);
    (table t1 3.75 3.0 4.0 1.0, 1.75);
    (table t1 3.0 4.0 3.0 (-1.0), 2.0);
    (table t1 4.0 4.0 3.0 (-1.0), 1.0);
    (table t1 3.5 4.0 3.0 (-1.0), 1.5);
    (table t1 3.75 4.0 3.0 (-1.0), 1.25);
    (table t1 (-0.5) (-0.5) 0.5 1.0, 1.0);
    (table t1 0.5 (-0.5) 0.5 1.0, 2.0);
    (table t1 0 (-0.5) 0.5 1.0, 1.5);
    (table t1 0.25 (-0.5) 0.5 1.0, 1.75);
    (table t1 (-0.5) 0.5 (-0.5) (-1.0), 2.0);
    (table t1 0.5 0.5 (-0.5) (-1.0), 1.0);
    (table t1 0 0.5 (-0.5) (-1.0), 1.5);
    (table t1 0.25 0.5 (-0.5) (-1.0), 1.25);
    (table t2 3.0 3.0 4.0 1.0, -1.0);
    (table t2 4.0 3.0 4.0 1.0, 1.0);
    (table t2 3.5 3.0 4.0 1.0, 0);
    (table t2 3.75 3.0 4.0 1.0, 0.5);
    (table t2 3.0 4.0 3.0 (-1.0), 1.0);
    (table t2 4.0 4.0 3.0 (-1.0), -1.0);
    (table t2 3.5 4.0 3.0 (-1.0), 0);
    (table t2 3.75 4.0 3.0 (-1.0), -0.5);
    (table [0.479425; 0.84147099] 0.632 0.5 1.0 0.5, 0.57500514136);
    (table t3 0 0 60 10, 1.04);
    (table t3 1 0 60 10, 1.0210000000000001);
    (table t3 10 0 60 10, 0.85);
    (table t3 20 0 60 10, 0.6);
    (table t3 25 0 60 10, 0.45);
    (table t3 30 0 60 10, 0.3);
    (table t3 40 0 60 10, 0.15);
    (table t3 50 0 60 10, 0.05);
    (table t3 59 0 60 10, 0.023);
    (table t3 60 0 60 10, 0.02) ].

End test.

Import world2.

(** ** Vocabulary of the statements *)

Section Vocabulary.

Context {D : Type} {DD : Double D}.
Local Open Scope double_scope.

Implicit Types (xstart xend xstep : D) (cs : constants D) (k : variables D).

(** The table length [tabhl] expects for a domain. *)
Definition expected_size xstart xend xstep : option Z :=
  to_size_t ((xend - xstart) / xstep + lit 1).

(** A lookup whose table has the length its domain requires. *)
Definition sized (t : lookup D) : Prop :=
  expected_size (xstart t) (xend t) (xstep t) = Some (dynamo.size (ytbl t)).

(** The equations of the auxiliary pass, read on the members of one
    [variables]: every auxiliary is computed from levels and auxiliaries of
    the same [k]. *)
Definition same_tick_auxiliaries cs k : Prop :=
  nrfr k = nr k / nri cs /\
  table NREMT (nrfr k) = Value (nrem k) /\
  cir k = ci k / p k /\
  ecir k = cir k * (lit 1 - ciaf k) * nrem k / (lit 1 - ciafn cs) /\
  msl k = ecir k / ecirn cs /\
  tabhl BRMMT (msl k) = Value (brmm k) /\
  tabhl DRMMT (msl k) = Value (drmm k) /\
  cr k = p k / (la cs * pdn cs) /\
  table DRCMT (cr k) = Value (drcm k) /\
  table BRCMT (cr k) = Value (brcm k) /\
  table FCMT (cr k) = Value (fcm k) /\
  table QLCT (cr k) = Value (qlc k) /\
  tabhl CIMT (msl k) = Value (cim k) /\
  polr k = pol k / pols cs /\
  table FPMT (polr k) = Value (fpm k) /\
  table DRPMT (polr k) = Value (drpm k) /\
  table BRPMT (polr k) = Value (brpm k) /\
  tabhl POLCMT (cir k) = Value (polcm k) /\
  table POLATT (polr k) = Value (polat k) /\
  tabhl QLMT (msl k) = Value (qlm k) /\
  table QLPT (polr k) = Value (qlp k) /\
  tabhl NRMMT (msl k) = Value (nrmm k) /\
  cira k = cir k * ciaf k / ciafn cs /\
  tabhl FPCIT (cira k) = Value (fpci k) /\
  fr k = fpci k * fcm k * fpm k
         * dynamo.clip (fc cs) (fc1 cs) (swt7 cs) (time k) / fn cs /\
  tabhl DRFMT (fr k) = Value (drfm k) /\
  tabhl BRFMT (fr k) = Value (brfm k) /\
  tabhl CFIFRT (fr k) = Value (cfifr k) /\
  tabhl QLFT (fr k) = Value (qlf k) /\
  tabhl CIQRT (qlm k / qlf k) = Value (ciqr k) /\
  ql k = qls cs * qlm k * qlc k * qlf k * qlp k.

(** The members of the variables of time .J that the level pass reads: the
    levels, the rates, the time, and the two auxiliaries of equation 35. *)
Definition lag_inputs_agree (j1 j2 : variables D) : Prop :=
  (p j1 = p j2 /\ nr j1 = nr j2 /\ ci j1 = ci j2 /\ pol j1 = pol j2 /\
   ciaf j1 = ciaf j2) /\
  (br j1 = br j2 /\ dr j1 = dr j2 /\ nrur j1 = nrur j2 /\ cig j1 = cig j2 /\
   cid j1 = cid j2 /\ polg j1 = polg j2 /\ pola j1 = pola j2) /\
  time j1 = time j2 /\
  (cfifr j1 = cfifr j2 /\ ciqr j1 = ciqr j2).

(** A rate equation whose value changes with the time alone, for some
    constants and some levels and auxiliaries: what a switch between a
    value before and a value after a switch time does. *)
Definition time_gated (rate : constants D -> variables D -> D) : Prop :=
  exists cs k (t1 t2 : D),
    rate cs (with_time k t1) <> rate cs (with_time k t2).

End Vocabulary.

(** The engine of [test()], [world w({})], and engines that leave the
    calibrated ranges of the tables: one with a population of [1E12], one
    with a time step of [1E6] years after its first call of [tick]. *)
Definition w_default : world float := construct default_constants.

Definition w_crowded : world float :=
  construct (with_pi default_constants (lit 1E12)).

Definition w_long_step : world float :=
  snd (tick (construct (with_dt default_constants (lit 1E6)))).

Definition w_default_1 : world float := snd (tick w_default).

Definition w_default_2 : world float := snd (tick w_default_1).

(** Constants whose six policy values double at the switch time 1970, and
    variables that are all [1]. *)
Definition policy_constants : constants float :=
  let one := lit 1 in
  let two := lit 2 in
  let swt := lit 1970 in
  {| brn := one; brn1 := two; ciafi := one; ciafn := one; ciaft := one;
     cidn := one; cidn1 := two; cign := one; cign1 := two; cii := one;
     drn := one; drn1 := two; ecirn := one; fc := one; fc1 := one; fn := one;
     la := one; nri := one; nrun := one; nrun1 := two; pdn := one; pi := one;
     poli := one; poln := one; poln1 := two; pols := one; qls := one;
     swt1 := swt; swt2 := swt; swt3 := swt; swt4 := swt; swt5 := swt;
     swt6 := swt; swt7 := swt; time0 := lit 1900; dt := lit 0.2;
     endtime := lit 2100 |}.

Definition variables_one : variables float :=
  let o := lit 1 in
  Build_variables o o o o o  o o o o o o o
    o o o o o o o o o o o o o o o o o o o o o o o o o o o o o o o  o.

Definition produced {A : Type} (r : result A) : bool :=
  match r with
  | Value _ => true
  | Throw _ | Undefined => false
  end.

(** ** Further vocabulary *)

(** [c] with the seven switch times [swt1] ... [swt7] set. *)
Definition with_switch_times {D : Type} (cs : constants D)
    (s1 s2 s3 s4 s5 s6 s7 : D) : constants D :=
  let 'Build_constants c1 c2 c3 c4 c5 c6 c7 c8 c9 c10 c11 c12 c13 c14 c15
    c16 c17 c18 c19 c20 c21 c22 c23 c24 c25 c26 c27 _ _ _ _ _ _ _ c35 c36
    c37 := cs in
  Build_constants c1 c2 c3 c4 c5 c6 c7 c8 c9 c10 c11 c12 c13 c14 c15 c16 c17
    c18 c19 c20 c21 c22 c23 c24 c25 c26 c27 s1 s2 s3 s4 s5 s6 s7 c35 c36
    c37.


Section GridVocabulary.

Context {D : Type} {DD : Double D}.
Local Open Scope double_scope.



End GridVocabulary.


(** ** class graph *)

(** [std::round] and the conversions between [int] and [double] that
    [graph::calc_y] uses. *)
Class DoubleRound (D : Type) : Type := {
  dround : D -> D;               (* std::round: halves away from zero *)
  to_int : D -> option Z;        (* static_cast<int>(d); None when the
                                    truncated value does not fit (undefined
                                    behaviour in C++) *)
  of_int : Z -> D                (* the conversion int -> double *)
}.

Definition INT_MIN : Z := - 2 ^ 31.
Definition INT_MAX : Z := 2 ^ 31 - 1.

Module Binary64Round.

(** A double with a non-negative exponent is an integer already; otherwise
    the significand is divided by the power of two, a remainder of one half
    or more taking the quotient away from zero.  The result has the sign of
    the argument, also when it is zero. *)
Definition round (f : float) : float :=
  match Prim2SF f with
  | S754_finite s m e =>
      if (0 <=? e)%Z then f
      else
        let d := (2 ^ (- e))%Z in
        let q := (Zpos m / d)%Z in
        let v := (if d <=? 2 * (Zpos m mod d) then q + 1 else q)%Z in
        SF2Prim (binary_normalize prec emax (if s then - v else v)%Z 0 s)
  | _ => f
  end.

Definition cast_int (f : float) : option Z :=
  match Binary64.trunc f with
  | Some v => if ((INT_MIN <=? v) && (v <=? INT_MAX))%Z then Some v else None
  | None => None
  end.

End Binary64Round.

#[export] Instance binary64_round : DoubleRound float := {|
  dround := Binary64Round.round;
  to_int := Binary64Round.cast_int;
  of_int := Binary64.of_Z
|}.

Module graph.

Import Ascii.

Section Graph.

Context {D : Type} {DD : Double D} {DR : DoubleRound D}.
Local Open Scope double_scope.
Local Open Scope string_scope.

Definition default_graph_width : Z := 60.

(** [struct plotvar]; the pointer to member is the projection it selects. *)
Record plotvar : Type := {
  vptr : variables D -> D;       (* value to plot *)
  symbol : ascii;                (* symbol used to represent value *)
  low : D;                       (* y-axis lower bound *)
  high : D                       (* y-axis upper bound *)
}.

Record graph : Type := {
  w_ : world D;
  plotvars_ : list plotvar;
  ledgend_ : string
}.

Definition construct (cs : constants D) : graph :=
  {| w_ := world2.construct cs; plotvars_ := []; ledgend_ := "" |}.

(** [s.empty()] *)
Definition empty (s : string) : bool :=
  match s with
  | EmptyString => true
  | String _ _ => false
  end.

(** [graph::plot]; [name] is the text of the C string. *)
Definition plot (g : graph) (vptr : variables D -> D) (name : string)
    (symbol : ascii) (low high : D) : graph :=
  let l0 := ledgend_ g in
  let l1 := if negb (empty l0) then l0 ++ String "," "" else l0 in
  let l2 := l1 ++ name in
  let l3 := l2 ++ String "=" "" in
  {| w_ := w_ g;
     plotvars_ := plotvars_ g ++ [Build_plotvar vptr symbol low high];
     ledgend_ := l3 ++ String symbol "" |}.

(** [graph::join] *)
Definition join (strings : list string) (joiner : string) : string :=
  fold_left
    (fun result s =>
       (if negb (empty result) then result ++ joiner else result) ++ s)
    strings "".

(** [graph::calc_y] *)
Definition calc_y (value scale_lo scale_hi : D) (num_divisions : Z) : result Z :=
  defined (to_int (dround ((value - scale_lo) / (scale_hi - scale_lo)
                           * of_int num_divisions))).

(** *** One row of [graph::run]

    The row of the plotted symbols, without the label of the time axis
    that [snprintf] formats. *)

Definition dash_interval : Z := 10.
Definition dot_interval : Z := 15.

(** [line[i]] *)
Definition get (line : string) (i : Z) : result ascii :=
  if ((0 <=? i) && (i <? Z.of_nat (String.length line)))%Z
  then defined (String.get (Z.to_nat i) line)
  else Undefined.

Fixpoint put_nat (line : string) (i : nat) (c : ascii) : string :=
  match line, i with
  | EmptyString, _ => EmptyString
  | String _ s, O => String c s
  | String a s, S i => String a (put_nat s i c)
  end.

(** [line[i] = c]: a write outside the string is undefined. *)
Definition put (line : string) (i : Z) (c : ascii) : result string :=
  if ((0 <=? i) && (i <? Z.of_nat (String.length line)))%Z
  then Value (put_nat line (Z.to_nat i) c)
  else Undefined.

(** [std::string line(n, ' ')] *)
Definition spaces (n : Z) : string :=
  string_of_list_ascii (repeat " "%char (Z.to_nat n)).

(** [for (size_t i = 0; i < graph_width+1; i += dot_interval) line[i] = '.';]
    from [i] on; [fuel] bounds the number of iterations. *)
Fixpoint dots (fuel : nat) (graph_width i : Z) (line : string) : result string :=
  match fuel with
  | O => Undefined
  | S fuel =>
      if (i <? graph_width + 1)%Z then
        line <- put line i "."%char ;;
        dots fuel graph_width (wrap_size_t (i + dot_interval)) line
      else Value line
  end.

(** The loop that draws the dashes, from [i] on. *)
Fixpoint dashes (fuel : nat) (graph_width i : Z) (line : string) : result string :=
  match fuel with
  | O => Undefined
  | S fuel =>
      if (i <? graph_width + 1)%Z then
        line <- put line i "-"%char ;;
        line <- (if (i <? graph_width)%Z then put line (i + 1) " "%char
                 else Value line) ;;
        dashes fuel graph_width (wrap_size_t (i + 2)) line
      else Value line
  end.

(** The line before the symbols are drawn; [row_counter] is the value
    before its increment. *)
Definition background (row_counter : Z) : result string :=
  let graph_width := default_graph_width in
  let fuel := Z.to_nat (graph_width + 2) in
  line <- dots fuel graph_width 0 (spaces (graph_width + 1)) ;;
  if (row_counter mod dash_interval =? 0)%Z
  then dashes fuel graph_width 0 line
  else Value line.

(** [std::map<char, std::string>]: the entries in ascending order of their
    keys, which is the order of the character codes for 7-bit characters. *)
Definition intersects : Type := list (ascii * string).

(** [intersects[k] += c] *)
Fixpoint add_intersect (m : intersects) (k c : ascii) : intersects :=
  match m with
  | [] => [(k, String c "")]
  | (k', s) :: m' =>
      if Ascii.eqb k k' then (k', s ++ String c "") :: m'
      else if Ascii.ltb k k' then (k, String c "") :: m
      else (k', s) :: add_intersect m' k c
  end.

Definition free (ch : ascii) : bool :=
  Ascii.eqb ch " " || Ascii.eqb ch "-" || Ascii.eqb ch ".".

(** The body of the loop over [plotvars_]. *)
Definition draw (vars : variables D) (st : string * intersects) (pv : plotvar)
    : result (string * intersects) :=
  let graph_width := default_graph_width in
  y <- calc_y (vptr pv vars) (low pv) (high pv) graph_width ;;
  if (wrap_size_t y <? graph_width + 1)%Z then
    ch <- get (fst st) (wrap_size_t y) ;;
    if free ch then
      line <- put (fst st) (wrap_size_t y) (symbol pv) ;;
      Value (line, snd st)
    else Value (fst st, add_intersect (snd st) ch (symbol pv))
  else Value st.

Fixpoint draw_all (vars : variables D) (pvs : list plotvar)
    (st : string * intersects) : result (string * intersects) :=
  match pvs with
  | [] => Value st
  | pv :: pvs => st <- draw vars st pv ;; draw_all vars pvs st
  end.

(** The symbols that share a column, appended to the line. *)
Definition append_intersects (line : string) (m : intersects) : string :=
  if negb (match m with [] => true | _ :: _ => false end) then
    fst (fold_left
           (fun (st : string * bool) (i : ascii * string) =>
              let line := if snd st then fst st ++ String "," "" else fst st in
              ((line ++ String (fst i) "") ++ snd i, true))
           m (line ++ String " " "", false))
  else line.

Definition row (g : graph) (row_counter : Z) (vars : variables D) : result string :=
  line <- background row_counter ;;
  st <- draw_all vars (plotvars_ g) (line, []) ;;
  Value (append_intersects (fst st) (snd st)).

(** The loop of [graph::run] over the calls of [tick], from the call
    number [tick] on.  A line is kept with the time that its label shows,
    which only every tenth line has, in place of the label that [snprintf]
    formats.  [None]: the loop has not ended within [fuel] calls. *)
Fixpoint run_loop (fuel : nat) (g : graph) (w : world D) (tick row_counter : Z)
    (lines : list (option D * string))
    : option (result (list (option D * string))) :=
  match fuel with
  | O => None
  | S fuel =>
      if negb (run_complete w) then
        let (r, w') := world2.tick w in
        match r with
        | Value vars =>
            if (tick mod 20 =? 0)%Z then
              match row g row_counter vars with
              | Value line =>
                  let x_label :=
                    if (row_counter mod dash_interval =? 0)%Z
                    then Some (time vars) else None in
                  run_loop fuel g w' (wrap_size_t (tick + 1))
                    (wrap_size_t (row_counter + 1))
                    (lines ++ [(x_label, line)])
              | Throw e => Some (Throw e)
              | Undefined => Some Undefined
              end
            else run_loop fuel g w' (wrap_size_t (tick + 1)) row_counter lines
        | Throw e => Some (Throw e)
        | Undefined => Some Undefined
        end
      else Some (Value lines)
  end.

(** The lines of [graph::run]. *)
Definition run_lines (fuel : nat) (g : graph) : option (result (list (option D * string))) :=
  run_loop fuel g (w_ g) 0 0 [].

End Graph.

Arguments plotvar D : clear implicits.
Arguments graph D : clear implicits.


(** The calls of [graph::plot] in [fig_41] and in [fig_42]. *)
Definition fig_41_calls : list (string * plotvar float) :=
  [ ("P",    Build_plotvar (@p float)    "P" (lit 0) (lit 8E9));
    ("POLR", Build_plotvar (@polr float) "2" (lit 0) (lit 40));
    ("CI",   Build_plotvar (@ci float)   "C" (lit 0) (lit 20E9));
    ("QL",   Build_plotvar (@ql float)   "Q" (lit 0) (lit 2));
    ("NR",   Build_plotvar (@nr float)   "N" (lit 0) (lit 1000E9)) ]%string.

Definition msl_plotvar : plotvar float :=
  Build_plotvar (@msl float) "M" (lit 0) (lit 2).

Definition fig_42_calls : list (string * plotvar float) :=
  [ ("FR",   Build_plotvar (@fr float)   "F" (lit 0) (lit 2));
    ("MSL",  msl_plotvar);
    ("QLC",  Build_plotvar (@qlc float)  "4" (lit 0) (lit 2));
    ("QLP",  Build_plotvar (@qlp float)  "5" (lit 0) (lit 2));
    ("CIAF", Build_plotvar (@ciaf float) "A" (lit 0.2) (lit 0.6)) ]%string.

(** A plotted variable whose scale has equal bounds. *)
Definition flat_plotvar : plotvar float :=
  Build_plotvar (@p float) "P" (lit 0) (lit 0).

(** The line without dashes, and what the variables of [fig_42] that are
    all [1] make of it: four of them share the middle column, the fifth is
    beyond the line. *)
Definition dotted_line : string :=
  ".              .              .              .              .".

Definition fig_42_line_of_ones : string :=
  ".              .              F              .              .".

Definition fig_42_intersects_of_ones : intersects := [("F"%char, "M45"%string)].

End graph.

(** The calls of [graph::plot] on a graph, in order: the name and the other
    arguments of each. *)
Definition plot_calls {D : Type} {DD : Double D} (g : graph.graph D)
    (calls : list (string * graph.plotvar D)) : graph.graph D :=
  fold_left
    (fun g c => graph.plot g (graph.vptr (snd c)) (fst c) (graph.symbol (snd c))
                  (graph.low (snd c)) (graph.high (snd c)))
    calls g.

(** The entry of the legend for a call: [name=symbol]. *)
Definition legend_entry {D : Type} (c : string * graph.plotvar D) : string :=
  (fst c ++ "=" ++ String (graph.symbol (snd c)) "")%string.

(** The strings of a list from its first non-empty one on. *)
Fixpoint drop_empty (strings : list string) : list string :=
  match strings with
  | [] => []
  | s :: rest => if graph.empty s then drop_empty rest else strings
  end.

(** The snapshots among the outcomes of calls of [tick]. *)
Definition snapshots {D : Type} (rs : list (result (variables D)))
    : list (variables D) :=
  flat_map (fun r => match r with Value k => [k] | _ => [] end) rs.

(** Of the elements number [i], [i + 1], ... those whose number is a
    multiple of twenty. *)
Fixpoint sample_from {A : Type} (i : Z) (l : list A) : list A :=
  match l with
  | [] => []
  | a :: l' =>
      if (i mod 20 =? 0)%Z then a :: sample_from (i + 1) l'
      else sample_from (i + 1) l'
  end.

(** The lines number [k], [k + 1], ... of a graph, drawn from the snapshots
    of a list in order; every tenth line shows the time. *)
Fixpoint rows_from {D : Type} {DD : Double D} {DR : DoubleRound D}
    (g : graph.graph D) (k : Z) (l : list (variables D))
    : result (list (option D * string)) :=
  match l with
  | [] => Value []
  | vars :: l' =>
      line <- graph.row g k vars ;;
      rest <- rows_from g (k + 1) l' ;;
      Value ((if (k mod 10 =? 0)%Z then Some (time vars) else None, line) :: rest)
  end.

(** The symbol [c] is among those recorded under the key [k]. *)
Definition listed (m : graph.intersects) (k c : Ascii.ascii) : Prop :=
  exists s, In (k, s) m /\ In c (list_ascii_of_string s).

(** The symbol [c] can be read off the row at column [i]: it stands there,
    or it is recorded under the symbol that stands there. *)
Definition shown (line : string) (m : graph.intersects) (i : Z) (c : Ascii.ascii) : Prop :=
  graph.get line i = Value c \/
  exists k, graph.get line i = Value k /\ graph.free k = false /\ listed m k c.

(** The graphs of [fig_41] and [fig_42] before [run], and graphs on
    engines that stop or fail early: one whose end time is the initial
    time, one with a time step of [1E6] years, one with a flat scale. *)
Definition fig_41_graph : graph.graph float :=
  plot_calls (graph.construct default_constants) graph.fig_41_calls.

Definition fig_42_graph : graph.graph float :=
  plot_calls (graph.construct default_constants) graph.fig_42_calls.

Definition g_short : graph.graph float :=
  plot_calls (graph.construct (with_endtime default_constants (lit 1900)))
    graph.fig_41_calls.

Definition g_long_step : graph.graph float :=
  plot_calls (graph.construct (with_dt default_constants (lit 1E6)))
    graph.fig_41_calls.

Definition g_flat : graph.graph float :=
  graph.plot fig_41_graph (@p float) "P" (graph.symbol graph.flat_plotvar)
    (lit 0) (lit 0).

(** ** The assertions of [test()] on the graph *)

Module graph_test.

(** Character positions of Figure 4-1 in the book: population on the scale
    0 .. 8e9 and pollution ratio on the scale 0 .. 40. *)
Definition expected_p_y : list Z :=
  [12; 12; 12; 13; 13; 14; 15; 16; 17; 18;
   19; 20; 21; 22; 23; 25; 26; 27; 28; 30;
   31; 32; 34; 35; 36; 37; 38; 39; 39; 40;
   40; 40; 39; 39; 39; 38; 37; 37; 36; 35;
   34; 34; 33; 32; 32; 31; 30; 30; 29; 28;
   28]%Z.

Definition expected_polr_y : list Z :=
  [ 0;  0;  0;  0;  0;  0;  0;  0;  0;  0;
    0;  1;  1;  1;  1;  1;  1;  1;  1;  2;
    2;  2;  2;  3;  3;  4;  4;  4;  5;  5;
    6;  6;  7;  7;  8;  8;  8;  9;  9;  8;
    8;  8;  8;  7;  7;  6;  6;  5;  5;  4;
    4]%Z.

(** [a[x]]: a read outside the array is undefined. *)
Definition at_ (a : list Z) (x : Z) : result Z :=
  if (0 <=? x)%Z then defined (nth_error a (Z.to_nat x)) else Undefined.

(** The loop of [test()] over the calls of [tick], from the call number
    [tick] on: each [TEST_EQUAL(value, expected)] adds the pair of its
    arguments to [tests].  [None]: the loop has not ended within [fuel]
    calls. *)
Fixpoint loop (fuel : nat) (w : world float) (tick x : Z)
    (tests : list (Z * Z)) : option (result (list (Z * Z))) :=
  match fuel with
  | O => None
  | S fuel =>
      if negb (run_complete w) then
        let (r, w') := world2.tick w in
        match r with
        | Value vars =>
            if (tick mod 20 =? 0)%Z then
              match
                (p_y <- graph.calc_y (p vars) (lit 0) (lit 8E9)
                          graph.default_graph_width ;;
                 expected_p <- at_ expected_p_y x ;;
                 polr_y <- graph.calc_y (polr vars) (lit 0) (lit 40)
                             graph.default_graph_width ;;
                 expected_polr <- at_ expected_polr_y x ;;
                 Value [(p_y, expected_p); (polr_y, expected_polr)])
              with
              | Value pairs =>
                  loop fuel w' (wrap_size_t (tick + 1)) (wrap_size_t (x + 1))
                    (tests ++ pairs)
              | Throw e => Some (Throw e)
              | Undefined => Some Undefined
              end
            else loop fuel w' (wrap_size_t (tick + 1)) x tests
        | Throw e => Some (Throw e)
        | Undefined => Some Undefined
        end
      else Some (Value tests)
  end.

(** The pairs that the loop of [test()] compares, on [world w({})]. *)
Definition graph_assertions (fuel : nat) : option (result (list (Z * Z))) :=
  loop fuel w_default 0 0 [].

(** [test_equal] on [int]s counts a fault unless the two are equal. *)
Definition test_equal (actual_value expected_value : Z) : bool :=
  (actual_value =? expected_value)%Z.

End graph_test.

(** * Properties *)

Unset Implicit Arguments.
#[local] Open Scope Z_scope.


(** ** The order of the doubles *)

Module OrderFacts.

Ltac by_compare_spec :=
  repeat match goal with
  | |- context [Z.compare ?a ?b] => destruct (Z.compare_spec a b)
  | |- context [Pos.compare ?a ?b] => destruct (Pos.compare_spec a b)
  end;
  simpl; intros; subst; try discriminate; try reflexivity; try lia.

Lemma SFltb_irrefl (x : spec_float) : SFltb x x = false.
Proof.
  unfold SFltb, SFcompare.
  destruct x as [s|s| |s m e]; try destruct s; try reflexivity;
    rewrite Z.compare_refl;
    change (Pos.compare_cont Eq m m) with (Pos.compare m m);
    rewrite Pos.compare_refl; reflexivity.
Qed.

Lemma SFltb_trans (x y z : spec_float) :
  SFltb x y = true -> SFltb y z = true -> SFltb x z = true.
Proof.
  unfold SFltb, SFcompare.
  destruct x as [sx|sx| |sx mx ex]; destruct y as [sy|sy| |sy my ey];
    destruct z as [sz|sz| |sz mz ez];
    try destruct sx; try destruct sy; try destruct sz;
    try discriminate; try reflexivity;
    repeat match goal with
    | |- context [Pos.compare_cont Eq ?a ?b] =>
        change (Pos.compare_cont Eq a b) with (Pos.compare a b)
    end;
    by_compare_spec.
Qed.

End OrderFacts.

#[export] Instance binary64_order : DoubleOrder float.
Proof.
  split; simpl.
  - intro x. rewrite ltb_spec. apply OrderFacts.SFltb_irrefl.
  - intros x y z. rewrite !ltb_spec. apply OrderFacts.SFltb_trans.
Qed.

(** ** The lookup functions *)

Section Lookup.

Context {D : Type} {DD : Double D}.
Local Open Scope double_scope.

Implicit Types (ytbl : list D) (x xstart xend xstep : D).

Lemma at_front ytbl (d : D) :
  ytbl <> [] -> dynamo.at_ ytbl 0 = Value (hd d ytbl).
Proof.
  destruct ytbl as [|y ys]; [congruence|]. intros _.
  unfold dynamo.at_, dynamo.size. cbn [List.length].
  replace (0 <? Z.of_nat (S (List.length ys)))%Z with true
    by (symmetry; apply Z.ltb_lt; lia).
  reflexivity.
Qed.

Lemma back_last ytbl (d : D) :
  ytbl <> [] -> dynamo.back ytbl = Value (last ytbl d).
Proof.
  intros Hne. destruct (exists_last Hne) as [ys [y ->]].
  unfold dynamo.back, dynamo.at_, dynamo.size.
  rewrite last_last, length_app. cbn [List.length].
  replace (Z.of_nat (List.length ys + 1) - 1)%Z with (Z.of_nat (List.length ys)) by lia.
  replace (0 <=? Z.of_nat (List.length ys))%Z with true
    by (symmetry; apply Z.leb_le; lia).
  replace (Z.of_nat (List.length ys) <? Z.of_nat (List.length ys + 1))%Z with true
    by (symmetry; apply Z.ltb_lt; lia).
  rewrite Nat2Z.id, nth_error_app2, Nat.sub_diag by lia.
  reflexivity.
Qed.

Lemma at_not_throw ytbl (i : Z) (e : error) : dynamo.at_ ytbl i <> Throw e.
Proof.
  unfold dynamo.at_. destruct (_ && _); [|discriminate].
  destruct (nth_error _ _); discriminate.
Qed.

Lemma back_not_throw ytbl (e : error) : dynamo.back ytbl <> Throw e.
Proof. apply at_not_throw. Qed.

(** With a table of the expected length [tabhl] gets past its size test. *)
Lemma tabhl_sized ytbl x xstart xend xstep :
  expected_size xstart xend xstep = Some (dynamo.size ytbl) ->
  dynamo.tabhl ytbl x xstart xend xstep =
  match dynamo.extreme ytbl x xstart xend with
  | Some r => r
  | None =>
      i <- defined (to_size_t ((x - xstart) / xstep)) ;;
      if (i =? wrap_size_t (dynamo.size ytbl - 1))%Z then dynamo.at_ ytbl i
      else
        y0 <- dynamo.at_ ytbl i ;;
        y1 <- dynamo.at_ ytbl (wrap_size_t (i + 1)) ;;
        Value (y0 + (x - xstart - (xstep * of_size_t i)) * (y1 - y0) / xstep)
  end.
Proof.
  unfold expected_size, dynamo.tabhl. intros ->. cbn [defined bind].
  rewrite Z.eqb_refl. reflexivity.
Qed.

(** [tabhl] never throws the error of [table]. *)
Lemma tabhl_not_range_error ytbl x xstart xend xstep :
  dynamo.tabhl ytbl x xstart xend xstep <> Throw DomainRangeError.
Proof.
  unfold dynamo.tabhl.
  destruct (to_size_t _) as [range|]; cbn [defined bind]; [|discriminate].
  destruct (negb _); [discriminate|].
  unfold dynamo.extreme.
  repeat first
    [ apply at_not_throw | apply back_not_throw | discriminate
    | match goal with
      | |- context [to_size_t ?a] =>
          destruct (to_size_t a); cbn [defined bind]
      | |- context [bind (dynamo.at_ ?l ?k) _] =>
          let E := fresh "E" in
          destruct (dynamo.at_ l k) eqn:E; cbn [bind];
          [ | exfalso; eapply at_not_throw; exact E | ]
      | |- context [if ?b then _ else _] => destruct b
      end ].
Qed.

Lemma table_in_range ytbl x xstart xend xstep :
  dynamo.out_of_range x xstart xend = false ->
  dynamo.table ytbl x xstart xend xstep = dynamo.tabhl ytbl x xstart xend xstep.
Proof. unfold dynamo.table. intros ->. reflexivity. Qed.

Lemma table_range_error_iff ytbl x xstart xend xstep :
  dynamo.table ytbl x xstart xend xstep = Throw DomainRangeError <->
  dynamo.out_of_range x xstart xend = true.
Proof.
  unfold dynamo.table. destruct (dynamo.out_of_range x xstart xend).
  - split; reflexivity.
  - split; [|discriminate]. intros H.
    exfalso. exact (tabhl_not_range_error _ _ _ _ _ H).
Qed.

Context {DO : DoubleOrder D}.

Lemma dlt_asym (a b : D) : (a <? b) = true -> (b <? a) = false.
Proof.
  intros Hab. destruct (b <? a) eqn:Hba; [|reflexivity].
  pose proof (dlt_trans _ _ _ Hab Hba) as H.
  rewrite dlt_irrefl in H. discriminate.
Qed.

End Lookup.

(** ** Claims about [tabhl] and [table] *)

Section LookupClaims.

Context {D : Type} {DD : Double D} {DO : DoubleOrder D}.
Local Open Scope double_scope.

Implicit Types (ytbl : list D) (x xstart xend xstep : D).

(** C3 (amended).  For every non-empty table whose length is the one its
    domain requires, [tabhl] with [x] beyond an end of the domain returns
    the table value at that end and does not fail: on an ascending domain
    the first entry below [xstart] and the last entry above [xend]; on a
    descending domain the last entry below [xend] and the first entry above
    [xstart]. *)
Theorem C3_tabhl_clamps ytbl x xstart xend xstep (d : D) :
  ytbl <> [] ->
  expected_size xstart xend xstep = Some (dynamo.size ytbl) ->
  ((xstart <? xend) = true ->
     ((x <? xstart) = true ->
        dynamo.tabhl ytbl x xstart xend xstep = Value (hd d ytbl)) /\
     ((x >? xend) = true ->
        dynamo.tabhl ytbl x xstart xend xstep = Value (last ytbl d))) /\
  ((xstart >? xend) = true ->
     ((x <? xend) = true ->
        dynamo.tabhl ytbl x xstart xend xstep = Value (last ytbl d)) /\
     ((x >? xstart) = true ->
        dynamo.tabhl ytbl x xstart xend xstep = Value (hd d ytbl))).
Proof.
  intros Hne Hsize.
  rewrite (tabhl_sized _ _ _ _ _ Hsize). unfold dynamo.extreme.
  split; intros Hdir.
  - rewrite Hdir. split; intros Hx.
    + rewrite Hx. apply at_front, Hne.
    + rewrite (dlt_asym _ _ (dlt_trans _ _ _ Hdir Hx)), Hx.
      apply back_last, Hne.
  - rewrite (dlt_asym _ _ Hdir). split; intros Hx.
    + rewrite Hx. apply back_last, Hne.
    + rewrite (dlt_asym _ _ (dlt_trans _ _ _ Hdir Hx)), Hx.
      apply at_front, Hne.
Qed.

(** C4.  [table] throws the range error exactly when [x] is strictly
    outside the closed domain, [xstart, xend] ascending or [xend, xstart]
    descending; it does not throw it at [x = xstart] or [x = xend]; and
    whenever it does not throw it, its outcome is that of [tabhl] with the
    same arguments. *)
Theorem C4_table_range_error ytbl x xstart xend xstep :
  ((xstart <? xend) = true ->
     (dynamo.table ytbl x xstart xend xstep = Throw DomainRangeError <->
      (x <? xstart) = true \/ (x >? xend) = true)) /\
  ((xstart >? xend) = true ->
     (dynamo.table ytbl x xstart xend xstep = Throw DomainRangeError <->
      (x <? xend) = true \/ (x >? xstart) = true)) /\
  dynamo.table ytbl xstart xstart xend xstep <> Throw DomainRangeError /\
  dynamo.table ytbl xend xstart xend xstep <> Throw DomainRangeError /\
  (dynamo.table ytbl x xstart xend xstep <> Throw DomainRangeError ->
   dynamo.table ytbl x xstart xend xstep = dynamo.tabhl ytbl x xstart xend xstep).
Proof.
  split; [|split; [|split; [|split]]].
  - intros Hdir. rewrite table_range_error_iff. unfold dynamo.out_of_range.
    rewrite Hdir. apply orb_true_iff.
  - intros Hdir. rewrite table_range_error_iff. unfold dynamo.out_of_range.
    rewrite (dlt_asym _ _ Hdir). apply orb_true_iff.
  - rewrite table_range_error_iff. unfold dynamo.out_of_range.
    destruct (xstart <? xend) eqn:Hdir.
    + rewrite dlt_irrefl, (dlt_asym _ _ Hdir). discriminate.
    + rewrite dlt_irrefl. discriminate.
  - rewrite table_range_error_iff. unfold dynamo.out_of_range.
    destruct (xstart <? xend) eqn:Hdir.
    + rewrite (dlt_asym _ _ Hdir), dlt_irrefl. discriminate.
    + rewrite dlt_irrefl. discriminate.
  - intros Hno. apply table_in_range.
    rewrite table_range_error_iff in Hno.
    destruct (dynamo.out_of_range x xstart xend); congruence.
Qed.

(** C5 (amended).  With a table whose length is not the one its domain
    requires, [tabhl] throws the size error whatever [x] is; [table] throws
    the size error when [x] is inside the domain and the range error, which
    it tests first, when [x] is outside. *)
Theorem C5_size_error ytbl x xstart xend xstep (range : Z) :
  expected_size xstart xend xstep = Some range ->
  range <> dynamo.size ytbl ->
  dynamo.tabhl ytbl x xstart xend xstep = Throw DomainSizeError /\
  (dynamo.out_of_range x xstart xend = false ->
   dynamo.table ytbl x xstart xend xstep = Throw DomainSizeError) /\
  (dynamo.out_of_range x xstart xend = true ->
   dynamo.table ytbl x xstart xend xstep = Throw DomainRangeError).
Proof.
  intros Hexp Hne.
  assert (Htabhl : dynamo.tabhl ytbl x xstart xend xstep = Throw DomainSizeError).
  { unfold dynamo.tabhl. unfold expected_size in Hexp. rewrite Hexp.
    cbn [defined bind].
    replace (dynamo.size ytbl =? range)%Z with false
      by (symmetry; apply Z.eqb_neq; congruence).
    reflexivity. }
  split; [exact Htabhl|]. unfold dynamo.table.
  split; intros ->; [exact Htabhl | reflexivity].
Qed.

End LookupClaims.

(** C3, as stated, fails on the empty table: it has the length that the
    domain [0, 0.5] with step [-1] requires, and [tabhl] reads its first
    entry for an [x] below the domain. *)
Lemma C3_counterexample :
  let ytbl : list float := [] in
  let x := lit (-1) in
  let xstart := lit 0 in
  let xend := lit 0.5 in
  let xstep := lit (-1) in
  expected_size xstart xend xstep = Some (dynamo.size ytbl) /\
  (xstart <? xend)%dbl = true /\
  (x <? xstart)%dbl = true /\
  dynamo.tabhl ytbl x xstart xend xstep = Undefined.
Proof. vm_compute. repeat split. Qed.

Lemma C3_witness :
  dynamo.tabhl (D:=float) test.t1 (lit 2) (lit 3) (lit 4) (lit 1) = Value (lit 1) /\
  dynamo.tabhl (D:=float) test.t1 (lit 5) (lit 3) (lit 4) (lit 1) = Value (lit 2) /\
  dynamo.tabhl (D:=float) test.t1 (lit 2) (lit 4) (lit 3) (lit (-1)) = Value (lit 2) /\
  dynamo.tabhl (D:=float) test.t1 (lit 5) (lit 4) (lit 3) (lit (-1)) = Value (lit 1).
Proof.
  assert (Hne : test.t1 (D:=float) <> []) by discriminate.
  assert (Hup : expected_size (D:=float) (lit 3) (lit 4) (lit 1)
                = Some (dynamo.size (D:=float) test.t1))
    by (vm_compute; reflexivity).
  assert (Hdown : expected_size (D:=float) (lit 4) (lit 3) (lit (-1))
                  = Some (dynamo.size (D:=float) test.t1))
    by (vm_compute; reflexivity).
  split; [|split; [|split]].
  - apply (proj1 (@C3_tabhl_clamps float _ _ test.t1 (lit 2) (lit 3) (lit 4)
                    (lit 1) (lit 0) Hne Hup)); vm_compute; reflexivity.
  - apply (proj1 (@C3_tabhl_clamps float _ _ test.t1 (lit 5) (lit 3) (lit 4)
                    (lit 1) (lit 0) Hne Hup)); vm_compute; reflexivity.
  - apply (proj2 (@C3_tabhl_clamps float _ _ test.t1 (lit 2) (lit 4) (lit 3)
                    (lit (-1)) (lit 0) Hne Hdown)); vm_compute; reflexivity.
  - apply (proj2 (@C3_tabhl_clamps float _ _ test.t1 (lit 5) (lit 4) (lit 3)
                    (lit (-1)) (lit 0) Hne Hdown)); vm_compute; reflexivity.
Defined.

Lemma C4_witness :
  dynamo.table (D:=float) test.t1 (lit 4.5) (lit 3) (lit 4) (lit 1)
    = Throw DomainRangeError /\
  dynamo.table (D:=float) test.t1 (lit 3) (lit 3) (lit 4) (lit 1)
    <> Throw DomainRangeError.
Proof.
  destruct (C4_table_range_error (D:=float) test.t1
              (lit 4.5) (lit 3) (lit 4) (lit 1)) as [Hasc [_ [Hstart _]]].
  split.
  - apply Hasc; [|right]; vm_compute; reflexivity.
  - exact Hstart.
Defined.

(** C5, as stated, fails for [table]: a table of three entries over the
    domain [3, 4] with step [1], which requires two, and [x = 5] outside the
    domain give the range error, not the size error. *)
Lemma C5_counterexample :
  let ytbl : list float := map lit [1; 2; 3]%Q in
  expected_size (D:=float) (lit 3) (lit 4) (lit 1) = Some 2%Z /\
  dynamo.size ytbl = 3%Z /\
  dynamo.table ytbl (lit 5) (lit 3) (lit 4) (lit 1) = Throw DomainRangeError.
Proof. vm_compute. repeat split. Qed.

Lemma C5_witness :
  let ytbl : list float := map lit [1; 2; 3]%Q in
  dynamo.tabhl ytbl (lit 5) (lit 3) (lit 4) (lit 1) = Throw DomainSizeError /\
  dynamo.table ytbl (lit 3.5) (lit 3) (lit 4) (lit 1) = Throw DomainSizeError /\
  dynamo.table ytbl (lit 5) (lit 3) (lit 4) (lit 1) = Throw DomainRangeError.
Proof.
  intro ytbl.
  assert (Hexp : expected_size (D:=float) (lit 3) (lit 4) (lit 1) = Some 2%Z)
    by (vm_compute; reflexivity).
  assert (Hne : 2%Z <> dynamo.size ytbl) by (vm_compute; discriminate).
  split; [|split].
  - apply (C5_size_error ytbl (lit 5) _ _ _ _ Hexp Hne).
  - apply (C5_size_error ytbl (lit 3.5) _ _ _ _ Hexp Hne). vm_compute; reflexivity.
  - apply (C5_size_error ytbl (lit 5) _ _ _ _ Hexp Hne). vm_compute; reflexivity.
Defined.

(** ** The engine *)

Section Engine.

Context {D : Type} {DD : Double D}.
Local Open Scope double_scope.

Implicit Types (cs : constants D) (k : variables D) (w : world D).

Lemma bind_value {A B : Type} (m : result A) (f : A -> result B) (b : B) :
  bind m f = Value b -> exists a, m = Value a /\ f a = Value b.
Proof. destruct m; cbn [bind]; intros H; try discriminate. eauto. Qed.

Lemma bind_throw {A B : Type} (m : result A) (f : A -> result B) (e : error) :
  bind m f = Throw e ->
  m = Throw e \/ exists a, m = Value a /\ f a = Throw e.
Proof.
  destruct m as [a|e'|]; cbn [bind]; intros H.
  - right. exists a. split; [reflexivity | exact H].
  - left. congruence.
  - discriminate H.
Qed.

(** What a successful call of [tick] did. *)
Lemma tick_value w k w' :
  tick w = (Value k, w') ->
  exists k', auxiliaries (c w) (levels w) = Value k' /\
             k = rates (c w) k' /\
             w' = {| c := c w; j := k; time_j_exists_ := true |}.
Proof.
  unfold tick, compute_k.
  destruct (auxiliaries (c w) (levels w)) as [k'| |]; cbn [bind];
    intros H; inversion H; subst. eauto.
Qed.

Lemma tick_throw w e w' :
  tick w = (Throw e, w') ->
  auxiliaries (c w) (levels w) = Throw e /\ w' = w.
Proof.
  unfold tick, compute_k.
  destruct (auxiliaries (c w) (levels w)) as [k'| |]; cbn [bind];
    intros H; inversion H; subst. auto.
Qed.

(** Peel the lookups of [auxiliaries] off a hypothesis [H], one at a time. *)
Ltac peel H :=
  repeat match type of H with
  | bind ?m _ = Value _ =>
      let a := fresh "a" in
      let E := fresh "E" in
      destruct m as [a| |] eqn:E; cbn [bind] in H; [|discriminate H..]
  end.

Lemma auxiliaries_value cs k k' :
  auxiliaries cs k = Value k' ->
  (p k' = p k /\ nr k' = nr k /\ ci k' = ci k /\ pol k' = pol k /\
   ciaf k' = ciaf k /\ time k' = time k) /\
  same_tick_auxiliaries cs k'.
Proof.
  unfold auxiliaries. intros H. peel H.
  injection H as <-. unfold same_tick_auxiliaries. cbn.
  repeat split; assumption.
Qed.

Lemma levels_agree w1 w2 :
  c w1 = c w2 ->
  time_j_exists_ w1 = time_j_exists_ w2 ->
  lag_inputs_agree (j w1) (j w2) ->
  levels w1 = levels w2.
Proof.
  intros Hc He [[Hp [Hnr [Hci [Hpol Hciaf]]]]
                [[Hbr [Hdr [Hnrur [Hcig [Hcid [Hpolg Hpola]]]]]]
                 [Htime [Hcfifr Hciqr]]]].
  unfold levels. rewrite Hc, He, Hp, Hnr, Hci, Hpol, Hciaf, Hbr, Hdr, Hnrur,
    Hcig, Hcid, Hpolg, Hpola, Htime, Hcfifr, Hciqr.
  reflexivity.
Qed.

(** The snapshot a successful call returns, member by member. *)
Lemma tick_snapshot w k w' :
  tick w = (Value k, w') ->
  (p k = p (levels w) /\ nr k = nr (levels w) /\ ci k = ci (levels w) /\
   pol k = pol (levels w) /\ ciaf k = ciaf (levels w) /\
   time k = time (levels w)) /\
  same_tick_auxiliaries (c w) k /\
  (br k = rate_br (c w) k /\ nrur k = rate_nrur (c w) k /\
   dr k = rate_dr (c w) k /\ cig k = rate_cig (c w) k /\
   cid k = rate_cid (c w) k /\ polg k = rate_polg (c w) k /\
   pola k = rate_pola (c w) k) /\
  j w' = k /\ c w' = c w /\ time_j_exists_ w' = true.
Proof.
  intros H. destruct (tick_value _ _ _ H) as [k' [Haux [-> ->]]].
  destruct (auxiliaries_value _ _ _ Haux) as [Hlev Hsame].
  split; [exact Hlev|]. split; [exact Hsame|].
  split; [|repeat split]. repeat split.
Qed.

(** C1.  The first call of [tick] on an engine returns the five levels as
    the initial constants, with no integration step, at the initial time;
    each later call returns population, natural resources, capital
    investment and pollution as the level of the snapshot returned before
    plus [dt] times its net flow, at its time plus [dt]. *)
Theorem C1_levels_euler cs :
  (forall k w',
     tick (construct cs) = (Value k, w') ->
     p k = pi cs /\ ci k = cii cs /\ nr k = nri cs /\ pol k = poli cs /\
     ciaf k = ciafi cs /\ time k = time0 cs) /\
  (forall w k1 w1 k2 w2,
     c w = cs ->
     tick w = (Value k1, w1) ->
     tick w1 = (Value k2, w2) ->
     p k2 = p k1 + dt cs * (br k1 - dr k1) /\
     nr k2 = nr k1 + dt cs * - nrur k1 /\
     ci k2 = ci k1 + dt cs * (cig k1 - cid k1) /\
     pol k2 = pol k1 + dt cs * (polg k1 - pola k1) /\
     time k2 = time k1 + dt cs).
Proof.
  split.
  - intros k w' H.
    destruct (tick_snapshot _ _ _ H) as [[Hp [Hnr [Hci [Hpol [Hciaf Ht]]]]] _].
    cbn in *. repeat split; assumption.
  - intros w k1 w1 k2 w2 Hcs H1 H2.
    destruct (tick_snapshot _ _ _ H1) as [_ [_ [_ [Hj [Hc He]]]]].
    destruct (tick_snapshot _ _ _ H2) as [[Hp [Hnr [Hci [Hpol [Hciaf Ht]]]]] _].
    unfold levels in *. rewrite He, Hj, Hc, Hcs in *. cbn in *.
    repeat split; assumption.
Qed.

(** C2.  On every call after the first the agriculture fraction is
    [ciaf + (dt / ciaft) * (cfifr * ciqr - ciaf)] on the members of the
    snapshot returned before, so on the two auxiliaries as the previous call
    left them; every auxiliary of the returned snapshot is computed from
    levels and auxiliaries of that same snapshot; and no other auxiliary of
    the previous snapshot has any effect on the call. *)
Theorem C2_ciaf_one_step_lag w k1 w1 k2 w2 :
  tick w = (Value k1, w1) ->
  tick w1 = (Value k2, w2) ->
  ciaf k2 = ciaf k1
            + (dt (c w) / ciaft (c w)) * ((cfifr k1 * ciqr k1) - ciaf k1) /\
  same_tick_auxiliaries (c w) k2 /\
  (forall j' : variables D,
     lag_inputs_agree k1 j' ->
     fst (tick {| c := c w; j := j'; time_j_exists_ := true |}) = Value k2).
Proof.
  intros H1 H2.
  destruct (tick_snapshot _ _ _ H1) as [_ [_ [_ [Hj [Hc He]]]]].
  destruct (tick_snapshot _ _ _ H2) as [[_ [_ [_ [_ [Hciaf _]]]]] [Hsame _]].
  split; [|split].
  - rewrite Hciaf. unfold levels. rewrite He, Hj, Hc. reflexivity.
  - rewrite <- Hc. exact Hsame.
  - intros j' Hagree.
    assert (Hlev : levels {| c := c w; j := j'; time_j_exists_ := true |}
                   = levels w1).
    { symmetry. apply levels_agree; cbn; [exact Hc | exact He |].
      rewrite Hj. exact Hagree. }
    unfold tick, compute_k in *. cbn [c] in *. rewrite Hlev, <- Hc.
    destruct (auxiliaries (c w1) (levels w1)); cbn [bind] in *;
      inversion H2; reflexivity.
Qed.

(** C9.  A call of [tick] that throws leaves the engine as it was, the
    variables of time .J included, and the error is the one thrown in the
    auxiliary pass. *)
Theorem C9_throw_leaves_engine w e w' :
  tick w = (Throw e, w') ->
  w' = w /\ j w' = j w /\ time_j_exists_ w' = time_j_exists_ w /\
  auxiliaries (c w) (levels w) = Throw e.
Proof.
  intros H. destruct (tick_throw _ _ _ H) as [Haux ->]. auto.
Qed.

(** The member updates change the member they name and nothing else. *)
Lemma member_updates cs k (x : D) :
  (pi (with_pi cs x) = x /\ with_pi cs (pi cs) = cs) /\
  (dt (with_dt cs x) = x /\ with_dt cs (dt cs) = cs) /\
  (endtime (with_endtime cs x) = x /\ with_endtime cs (endtime cs) = cs) /\
  (time (with_time k x) = x /\ with_time k (time k) = k).
Proof. destruct cs, k. repeat split. Qed.

(** C7 (amended).  Each of the seven rates of the returned snapshot is
    computed from the levels and auxiliaries of that same snapshot.  Six of
    them pass through [clip] at their own switch time: [br] at [swt1],
    [nrur] at [swt2], [dr] at [swt3], [cig] at [swt4], [cid] at [swt5],
    [polg] at [swt6].  The pollution absorption [pola] is [pol / polat],
    with no switch. *)
Theorem C7_rates w k w' :
  tick w = (Value k, w') ->
  br k = p k * dynamo.clip (brn (c w)) (brn1 (c w)) (swt1 (c w)) (time k)
         * brfm k * brmm k * brcm k * brpm k /\
  nrur k = p k * dynamo.clip (nrun (c w)) (nrun1 (c w)) (swt2 (c w)) (time k)
           * nrmm k /\
  dr k = p k * dynamo.clip (drn (c w)) (drn1 (c w)) (swt3 (c w)) (time k)
         * drmm k * drpm k * drfm k * drcm k /\
  cig k = p k * cim k
          * dynamo.clip (cign (c w)) (cign1 (c w)) (swt4 (c w)) (time k) /\
  cid k = ci k * dynamo.clip (cidn (c w)) (cidn1 (c w)) (swt5 (c w)) (time k) /\
  polg k = p k * dynamo.clip (poln (c w)) (poln1 (c w)) (swt6 (c w)) (time k)
           * polcm k /\
  pola k = pol k / polat k.
Proof.
  intros H. destruct (tick_snapshot _ _ _ H) as [_ [_ [Hrates _]]].
  exact Hrates.
Qed.

(** The pollution absorption does not change with the time. *)
Lemma rate_pola_not_time_gated : ~ time_gated (D:=D) rate_pola.
Proof.
  intros [cs [k [t1 [t2 Hne]]]]. apply Hne. destruct k. reflexivity.
Qed.

(** *** Completion *)

Lemma tick_with_endtime w (e : D) :
  fst (tick {| c := with_endtime (c w) e; j := j w;
               time_j_exists_ := time_j_exists_ w |}) = fst (tick w).
Proof.
  destruct w as [cs jv ex]. destruct cs. cbn [c j time_j_exists_ with_endtime].
  unfold tick, compute_k. cbn [c]. unfold levels. cbn [c j time_j_exists_].
  match goal with
  | |- fst match bind ?a ?f with _ => _ end
       = fst match bind ?b ?g with _ => _ end =>
      change a with b; destruct b; reflexivity
  end.
Qed.

(** The engine state after any number of calls: the constants are those it
    was built with, and the variables of time .J are the snapshot produced
    last, if any. *)
Lemma run_invariant cs (n : nat) :
  let '(rs, w) := run n (construct cs) in
  c w = cs /\
  match last_produced rs with
  | None => time_j_exists_ w = false
  | Some k => time_j_exists_ w = true /\ j w = k
  end.
Proof.
  induction n as [|n IH]; cbn [run].
  - split; reflexivity.
  - destruct (run n (construct cs)) as [rs w]. destruct IH as [Hc Hlast].
    destruct (tick w) as [r w''] eqn:Ht. destruct r as [k|e|].
    + destruct (tick_snapshot _ _ _ Ht) as [_ [_ [_ [Hj [Hc' He]]]]].
      cbn [last_produced]. rewrite Hc', Hc. auto.
    + destruct (tick_throw _ _ _ Ht) as [_ ->]. cbn [last_produced]. auto.
    + unfold tick in Ht. destruct (compute_k w); inversion Ht; subst.
      cbn [last_produced]. auto.
Qed.

(** C8.  [run_complete] is [false] on a new engine; after any number of
    calls of [tick] it is [true] exactly when a snapshot has been produced
    and the time of the one produced last is greater than the end time; and
    whether a call of [tick] produces its snapshot does not depend on the
    end time, so the snapshot whose time first exceeds it is produced and
    returned like any other. *)
Theorem C8_run_complete cs :
  run_complete (construct cs) = false /\
  (forall n : nat,
     let '(rs, w) := run n (construct cs) in
     run_complete w =
     match last_produced rs with
     | None => false
     | Some k => time k >? endtime cs
     end) /\
  (forall w k w',
     c w = cs -> tick w = (Value k, w') ->
     run_complete w' = (time k >? endtime cs)) /\
  (forall w (e : D),
     fst (tick {| c := with_endtime (c w) e; j := j w;
                  time_j_exists_ := time_j_exists_ w |}) = fst (tick w)).
Proof.
  split; [reflexivity|]. split; [|split].
  - intros n. pose proof (run_invariant cs n) as Hinv.
    destruct (run n (construct cs)) as [rs w]. destruct Hinv as [Hc Hlast].
    unfold run_complete. rewrite Hc.
    destruct (last_produced rs) as [k|].
    + destruct Hlast as [-> ->]. reflexivity.
    + rewrite Hlast. reflexivity.
  - intros w k w' Hc H.
    destruct (tick_snapshot _ _ _ H) as [_ [_ [_ [Hj [Hc' He]]]]].
    unfold run_complete. rewrite He, Hj, Hc', Hc. reflexivity.
  - exact tick_with_endtime.
Qed.

(** *** The size test of the lookups *)

Lemma tabhl_sized_no_throw (t : lookup D) (x : D) (e : error) :
  sized t -> tabhl t x <> Throw e.
Proof.
  unfold sized, tabhl. intros Hs. rewrite (tabhl_sized _ _ _ _ _ Hs).
  unfold dynamo.extreme.
  repeat first
    [ apply at_not_throw | apply back_not_throw | discriminate
    | match goal with
      | |- context [to_size_t ?a] =>
          destruct (to_size_t a); cbn [defined bind]
      | |- context [bind (dynamo.at_ ?l ?i) _] =>
          let E := fresh "E" in
          destruct (dynamo.at_ l i) eqn:E; cbn [bind];
          [ | exfalso; eapply at_not_throw; exact E | ]
      | |- context [if ?b then _ else _] => destruct b
      end ].
Qed.

Lemma table_sized_no_size_error (t : lookup D) (x : D) :
  sized t -> table t x <> Throw DomainSizeError.
Proof.
  intros Hs. unfold table, dynamo.table.
  destruct (dynamo.out_of_range _ _ _); [discriminate|].
  intros H. eapply tabhl_sized_no_throw; eassumption.
Qed.

(** With every table of the right length the auxiliary pass cannot throw
    the size error. *)
Lemma auxiliaries_no_size_error cs k :
  Forall sized lookups -> auxiliaries cs k <> Throw DomainSizeError.
Proof.
  unfold lookups. intros Hall.
  repeat match goal with
  | H : Forall sized (_ :: _) |- _ => inversion_clear H
  end.
  unfold auxiliaries. intros Haux.
  repeat (cbv zeta in Haux; apply bind_throw in Haux;
          destruct Haux as [Haux | [? [_ Haux]]];
          [ revert Haux;
            first [ apply tabhl_sized_no_throw | apply table_sized_no_size_error ];
            assumption
          | ]).
  discriminate Haux.
Qed.

End Engine.

(** ** Reading a table *)

Lemma extreme_in_range {D} {DD : Double D} (T : list D) (x xs xe : D) :
  dynamo.out_of_range x xs xe = false -> dynamo.extreme T x xs xe = None.
Proof.
  unfold dynamo.out_of_range, dynamo.extreme.
  destruct (dlt xs xe); intros H; apply orb_false_iff in H;
    destruct H as [-> ->]; reflexivity.
Qed.


(** ** The program: binary64 *)

Section Binary64Claims.

#[local] Set Warnings "-inexact-float".
Local Open Scope double_scope.

(** The literals of the program, converted by [lit], are the doubles a
    compiler reads them as. *)
Lemma lit_nearest_double :
  map lit [0.04; 0.2; 0.3; 15; 0.025; 0.05; 0.4E9; 0.028; 1; 135E6; 900E9;
           26.5; 1.65E9; 0.2E9; 3.6E9; 1970; 1900; 2100; 0.15; 0.5; 0.85;
           1.2; 0.75; 0.7; 3; 1.8; 0.8; 0.6; 0.53; 0.9; 1.5; 1.9; 1.05;
           0.55; 2.4; 0.4; 2; 1.3; 0.45; 0.38; 0.25; 0.22; 0.1; 2.8; 1.02;
           0.65; 0.35; 0.92; 3.2; 4.8; 6.8; 9.2; 5.4; 7.4; 8; 2.5; 5; 11.5;
           15.5; 20; 1.7; 2.3; 2.7; 2.9; 1.04; 0.02; 3.3; 3.6; 3.8; 3.9;
           3.95; 4; 1.4; 2.05; 2.2; 30; 1.6; 10; 60; 6; 0]%Q
  = [0.04; 0.2; 0.3; 15; 0.025; 0.05; 0.4E9; 0.028; 1; 135E6; 900E9;
     26.5; 1.65E9; 0.2E9; 3.6E9; 1970; 1900; 2100; 0.15; 0.5; 0.85;
     1.2; 0.75; 0.7; 3; 1.8; 0.8; 0.6; 0.53; 0.9; 1.5; 1.9; 1.05;
     0.55; 2.4; 0.4; 2; 1.3; 0.45; 0.38; 0.25; 0.22; 0.1; 2.8; 1.02;
     0.65; 0.35; 0.92; 3.2; 4.8; 6.8; 9.2; 5.4; 7.4; 8; 2.5; 5; 11.5;
     15.5; 20; 1.7; 2.3; 2.7; 2.9; 1.04; 0.02; 3.3; 3.6; 3.8; 3.9;
     3.95; 4; 1.4; 2.05; 2.2; 30; 1.6; 10; 60; 6; 0]%float.
Proof. vm_compute. reflexivity. Qed.

(** Every assertion of [test()] on [table] passes. *)
Lemma table_assertions_pass :
  forallb (fun a => test.passes (fst a) (snd a)) test.table_assertions = true.
Proof. vm_compute. reflexivity. Qed.

(** The run of [test()]: 1001 calls produce a snapshot each and leave the
    run incomplete; the next call produces the first snapshot whose time
    exceeds the end time, and the run is complete after it. *)
Lemma default_run_completes :
  let '(rs, w) := run 1001 w_default in
  forallb produced rs = true /\
  run_complete w = false /\
  match tick w with
  | (Value k, w') => (time k >? endtime default_constants) = true /\
                     run_complete w' = true
  | _ => False
  end.
Proof. vm_compute. repeat split. Qed.

Lemma lookups_sized : Forall (sized (D:=float)) lookups.
Proof.
  repeat (apply Forall_cons; [vm_compute; reflexivity|]). apply Forall_nil.
Qed.

(** C10.  Each of the 22 literal tables of [tick] has the length that its
    literal domain and step require, so no call of [tick], whatever the
    engine state and the constants, throws the size error. *)
Theorem C10_size_error_unreachable :
  List.length (lookups (D:=float)) = 22%nat /\
  Forall (sized (D:=float)) lookups /\
  forall w : world float, fst (tick w) <> Throw DomainSizeError.
Proof.
  split; [reflexivity|]. split; [exact lookups_sized|].
  intros w. unfold tick, compute_k.
  destruct (auxiliaries (c w) (levels w)) as [k|e|] eqn:Haux; cbn;
    try discriminate.
  intros H. injection H as ->.
  exact (auxiliaries_no_size_error _ _ lookups_sized Haux).
Qed.


Lemma float_neq (x y : float) :
  PrimFloat.eqb x y = false -> PrimFloat.eqb x x = true -> x <> y.
Proof. intros Hxy Hxx E. rewrite <- E in Hxy. congruence. Qed.

(** The six rates that pass through [clip] change with the time. *)
Lemma clipped_rates_time_gated :
  Forall (time_gated (D:=float))
    [rate_br; rate_dr; rate_cig; rate_cid; rate_nrur; rate_polg].
Proof.
  repeat (apply Forall_cons;
          [ exists policy_constants, variables_one, (lit 1900), (lit 2000);
            apply float_neq; vm_compute; reflexivity | ]).
  apply Forall_nil.
Qed.

(** C7, as stated, fails for the pollution absorption: it is not behind a
    switch on the time. *)
Lemma C7_counterexample : ~ Forall (time_gated (D:=float)) rate_equations.
Proof.
  unfold rate_equations. intros H.
  repeat match goal with
  | H : Forall _ (_ :: _) |- _ => inversion_clear H
  end.
  match goal with
  | Hpola : time_gated rate_pola |- _ =>
      exact (rate_pola_not_time_gated (D:=float) Hpola)
  end.
Qed.

Lemma C1_witness :
  let k1 := j w_default_1 in
  let k2 := j w_default_2 in
  (p k1 = lit 1.65E9 /\ time k1 = lit 1900) /\
  (p k2 = p k1 + lit 0.2 * (br k1 - dr k1) /\ time k2 = time k1 + lit 0.2).
Proof.
  assert (H1 : tick w_default = (Value (j w_default_1), w_default_1))
    by (vm_compute; reflexivity).
  assert (H2 : tick w_default_1 = (Value (j w_default_2), w_default_2))
    by (vm_compute; reflexivity).
  destruct (C1_levels_euler (D:=float) default_constants) as [Hfirst Hnext].
  destruct (Hfirst _ _ H1) as [Hp [_ [_ [_ [_ Ht]]]]].
  destruct (Hnext w_default _ _ _ _ eq_refl H1 H2) as [Hp2 [_ [_ [_ Ht2]]]].
  split; split; assumption.
Defined.

Lemma C2_witness :
  let k1 := j w_default_1 in
  let k2 := j w_default_2 in
  ciaf k2 = ciaf k1 + (lit 0.2 / lit 15) * ((cfifr k1 * ciqr k1) - ciaf k1).
Proof.
  assert (H1 : tick w_default = (Value (j w_default_1), w_default_1))
    by (vm_compute; reflexivity).
  assert (H2 : tick w_default_1 = (Value (j w_default_2), w_default_2))
    by (vm_compute; reflexivity).
  exact (proj1 (C2_ciaf_one_step_lag w_default _ _ _ _ H1 H2)).
Defined.

Lemma C7_witness :
  let k := j w_default_1 in
  br k = p k * dynamo.clip (lit 0.04) (lit 0.04) (lit 1970) (time k)
         * brfm k * brmm k * brcm k * brpm k /\
  pola k = pol k / polat k.
Proof.
  assert (H1 : tick w_default = (Value (j w_default_1), w_default_1))
    by (vm_compute; reflexivity).
  destruct (C7_rates w_default _ _ H1) as [Hbr [_ [_ [_ [_ [_ Hpola]]]]]].
  split; assumption.
Defined.

Lemma C9_witness :
  time_j_exists_ w_long_step = true /\
  fst (tick w_long_step) = Throw DomainRangeError /\
  snd (tick w_long_step) = w_long_step /\
  snd (tick w_crowded) = w_crowded.
Proof.
  assert (H1 : tick w_long_step = (Throw DomainRangeError, snd (tick w_long_step)))
    by (vm_compute; reflexivity).
  assert (H2 : tick w_crowded = (Throw DomainRangeError, snd (tick w_crowded)))
    by (vm_compute; reflexivity).
  split; [vm_compute; reflexivity|].
  split; [rewrite H1; reflexivity|].
  split.
  - exact (proj1 (C9_throw_leaves_engine _ _ _ H1)).
  - exact (proj1 (C9_throw_leaves_engine _ _ _ H2)).
Defined.

Lemma C8_witness :
  run_complete w_default = false /\
  run_complete w_default_1 = (time (j w_default_1) >? lit 2100) /\
  run_complete w_default_1 = false.
Proof.
  assert (H1 : tick w_default = (Value (j w_default_1), w_default_1))
    by (vm_compute; reflexivity).
  destruct (C8_run_complete (D:=float) default_constants)
    as [Hnew [_ [Hafter _]]].
  split; [exact Hnew|].
  split; [exact (Hafter w_default _ _ eq_refl H1)|].
  vm_compute; reflexivity.
Defined.

Lemma C10_witness :
  fst (tick w_default) <> Throw DomainSizeError /\
  fst (tick w_crowded) <> Throw DomainSizeError /\
  fst (tick w_long_step) <> Throw DomainSizeError.
Proof.
  destruct C10_size_error_unreachable as [_ [_ Hnever]].
  split; [|split]; apply Hnever.
Defined.

End Binary64Claims.

(** ** The exceptions of the lookups *)

Section LookupExtras.

Context {D : Type} {DD : Double D}.
Local Open Scope double_scope.

Implicit Types (ytbl : list D) (x xstart xend xstep : D).

(** X1.  The exceptions of the two lookups, completely: [tabhl] throws
    exactly when the table has not the length its domain requires, and then
    the size error; [table] throws the range error exactly when [x] is
    outside the domain, and the size error exactly when [x] is inside it and
    the table has not the required length. *)
Theorem X1_lookup_exceptions ytbl x xstart xend xstep (e : error) :
  (dynamo.tabhl ytbl x xstart xend xstep = Throw e <->
   e = DomainSizeError /\
   exists range, expected_size xstart xend xstep = Some range /\
                 range <> dynamo.size ytbl) /\
  (dynamo.table ytbl x xstart xend xstep = Throw e <->
   (e = DomainRangeError /\ dynamo.out_of_range x xstart xend = true) \/
   (e = DomainSizeError /\ dynamo.out_of_range x xstart xend = false /\
    exists range, expected_size xstart xend xstep = Some range /\
                  range <> dynamo.size ytbl)).
Proof.
  assert (Htabhl :
    dynamo.tabhl ytbl x xstart xend xstep = Throw e <->
    e = DomainSizeError /\
    exists range, expected_size xstart xend xstep = Some range /\
                  range <> dynamo.size ytbl).
  { split.
    - intros H. destruct (expected_size xstart xend xstep) as [range|] eqn:Hexp.
      + destruct (Z.eq_dec range (dynamo.size ytbl)) as [->|Hne].
        * exfalso. revert H.
          apply (tabhl_sized_no_throw
                   {| ytbl := ytbl; xstart := xstart; xend := xend;
                      xstep := xstep |} x e Hexp).
        * split; [|exists range; split; [reflexivity | exact Hne]].
          unfold dynamo.tabhl, expected_size in *. rewrite Hexp in H.
          cbn [defined bind] in H.
          replace (dynamo.size ytbl =? range)%Z with false in H
            by (symmetry; apply Z.eqb_neq; congruence).
          cbn [negb] in H. congruence.
      + unfold dynamo.tabhl, expected_size in *. rewrite Hexp in H.
        discriminate H.
    - intros [-> [range [Hexp Hne]]].
      unfold dynamo.tabhl, expected_size in *. rewrite Hexp.
      cbn [defined bind].
      replace (dynamo.size ytbl =? range)%Z with false
        by (symmetry; apply Z.eqb_neq; congruence).
      reflexivity. }
  split; [exact Htabhl|].
  unfold dynamo.table.
  destruct (dynamo.out_of_range x xstart xend).
  - split.
    + intros H. left. split; [congruence | reflexivity].
    + intros [[-> _] | [_ [Hf _]]]; [reflexivity | discriminate Hf].
  - rewrite Htabhl. split.
    + intros [-> Hex]. right. auto.
    + intros [[_ Hf] | [-> [_ Hex]]]; [discriminate Hf | auto].
Qed.

End LookupExtras.

(** ** Binary64: NaN, zero steps and the comparison of the tests *)

Module NaNFacts.

Lemma is_nan_spec (x : float) : is_nan x = true <-> Prim2SF x = S754_nan.
Proof.
  unfold is_nan. rewrite FloatAxioms.eqb_spec. unfold SFeqb, SFcompare.
  destruct (Prim2SF x) as [s|s| |s m e]; try destruct s; cbn;
    try (split; [discriminate | discriminate]); try (split; reflexivity).
  - rewrite Z.compare_refl.
    change (Pos.compare_cont Eq m m) with (Pos.compare m m).
    rewrite Pos.compare_refl. cbn. split; discriminate.
  - rewrite Z.compare_refl.
    change (Pos.compare_cont Eq m m) with (Pos.compare m m).
    rewrite Pos.compare_refl. cbn. split; discriminate.
Qed.

Lemma ltb_nan_l (x y : float) : is_nan x = true -> PrimFloat.ltb x y = false.
Proof. rewrite is_nan_spec, ltb_spec. intros ->. reflexivity. Qed.

Lemma ltb_nan_r (x y : float) : is_nan y = true -> PrimFloat.ltb x y = false.
Proof.
  rewrite is_nan_spec, ltb_spec. intros ->. unfold SFltb, SFcompare.
  destruct (Prim2SF x); reflexivity.
Qed.

Lemma leb_nan_l (x y : float) : is_nan x = true -> PrimFloat.leb x y = false.
Proof. rewrite is_nan_spec, leb_spec. intros ->. reflexivity. Qed.

Lemma leb_nan_r (x y : float) : is_nan y = true -> PrimFloat.leb x y = false.
Proof.
  rewrite is_nan_spec, leb_spec. intros ->. unfold SFleb, SFcompare.
  destruct (Prim2SF x); reflexivity.
Qed.

Lemma sub_nan_l (x y : float) : is_nan x = true -> is_nan (x - y) = true.
Proof. rewrite !is_nan_spec, sub_spec. intros ->. reflexivity. Qed.

Lemma sub_nan_r (x y : float) : is_nan y = true -> is_nan (x - y) = true.
Proof.
  rewrite !is_nan_spec, sub_spec. intros ->. unfold SF64sub, SFsub.
  destruct (Prim2SF x); reflexivity.
Qed.

Lemma div_nan_l (x y : float) : is_nan x = true -> is_nan (x / y) = true.
Proof. rewrite !is_nan_spec, div_spec. intros ->. reflexivity. Qed.

Lemma cast_nan (x : float) : is_nan x = true -> Binary64.cast_size_t x = None.
Proof.
  rewrite is_nan_spec. unfold Binary64.cast_size_t, Binary64.trunc.
  intros ->. reflexivity.
Qed.

Lemma SFleb_negb_ltb (x y : spec_float) :
  x <> S754_nan -> y <> S754_nan -> SFleb y x = negb (SFltb x y).
Proof.
  unfold SFleb, SFltb, SFcompare. intros Hx Hy.
  destruct x as [sx|sx| |sx mx ex]; destruct y as [sy|sy| |sy my ey];
    try congruence; try destruct sx; try destruct sy; try reflexivity;
    repeat match goal with
    | |- context [Pos.compare_cont Eq ?a ?b] =>
        change (Pos.compare_cont Eq a b) with (Pos.compare a b)
    end;
    rewrite (Z.compare_antisym ex ey), (Pos.compare_antisym mx my);
    destruct (Z.compare ex ey); cbn; try reflexivity;
    destruct (Pos.compare mx my); reflexivity.
Qed.

Lemma is_nan_false (x : float) : is_nan x = false -> Prim2SF x <> S754_nan.
Proof.
  intros H E. apply is_nan_spec in E. congruence.
Qed.

Lemma leb_negb_ltb (x y : float) :
  is_nan x = false -> is_nan y = false ->
  PrimFloat.leb y x = negb (PrimFloat.ltb x y).
Proof.
  intros Hx Hy. rewrite leb_spec, ltb_spec.
  apply SFleb_negb_ltb; apply is_nan_false; assumption.
Qed.

Lemma is_finite_spec (x : float) :
  is_finite x = true ->
  (exists s, Prim2SF x = S754_zero s) \/
  (exists s m e, Prim2SF x = S754_finite s m e).
Proof.
  unfold is_finite, is_infinity. intros H. apply negb_true_iff in H.
  apply orb_false_iff in H. destruct H as [Hnan Hinf].
  pose proof (is_nan_false _ Hnan) as Hn.
  rewrite FloatAxioms.eqb_spec, abs_spec in Hinf.
  replace (Prim2SF infinity) with (S754_infinity false) in Hinf
    by (vm_compute; reflexivity).
  destruct (Prim2SF x) as [s|s| |s m e]; eauto; [|congruence].
  destruct s; discriminate Hinf.
Qed.

End NaNFacts.

Section Binary64Edges.

Local Open Scope double_scope.

Lemma out_of_range_nan (x xstart xend : float) :
  is_nan x = true -> dynamo.out_of_range x xstart xend = false.
Proof.
  intros Hx. unfold dynamo.out_of_range. cbn [dlt binary64].
  rewrite !(NaNFacts.ltb_nan_l x), !(NaNFacts.ltb_nan_r _ x) by exact Hx.
  destruct (PrimFloat.ltb xstart xend); reflexivity.
Qed.

(** X5.  A NaN [x] is not rejected: [table] passes it to [tabhl], which
    returns no value for it: with a table of the wrong length it throws the
    size error, and otherwise the conversion of NaN to [size_t] leaves the
    behaviour undefined. *)
Theorem X5_nan_lookup (ytbl : list float) (x xstart xend xstep : float) :
  is_nan x = true ->
  dynamo.table ytbl x xstart xend xstep = dynamo.tabhl ytbl x xstart xend xstep /\
  (forall y, dynamo.tabhl ytbl x xstart xend xstep <> Value y) /\
  (expected_size xstart xend xstep = Some (dynamo.size ytbl) ->
   dynamo.tabhl ytbl x xstart xend xstep = Undefined).
Proof.
  intros Hx.
  assert (Hext : dynamo.extreme ytbl x xstart xend = None)
    by (apply extreme_in_range, out_of_range_nan, Hx).
  assert (Hcast : to_size_t ((x - xstart) / xstep) = None)
    by (apply NaNFacts.cast_nan, NaNFacts.div_nan_l, NaNFacts.sub_nan_l, Hx).
  split; [apply table_in_range, out_of_range_nan, Hx|]. split.
  - intros y. unfold dynamo.tabhl.
    destruct (to_size_t ((xend - xstart) / xstep + lit 1)) as [range|];
      cbn [defined bind]; [|discriminate].
    destruct (negb _); [discriminate|].
    rewrite Hext, Hcast. cbn [defined bind]. discriminate.
  - intros Hs. rewrite (tabhl_sized _ _ _ _ _ Hs), Hext, Hcast. reflexivity.
Qed.

Lemma X5_witness :
  dynamo.table (D:=float) test.t1 nan (lit 3) (lit 4) (lit 1) = Undefined.
Proof.
  destruct (X5_nan_lookup test.t1 nan (lit 3) (lit 4) (lit 1) eq_refl)
    as [Htable [_ Hundef]].
  rewrite Htable. apply Hundef. vm_compute. reflexivity.
Defined.

Lemma is_zero_spec (x : float) :
  is_zero x = true -> exists s, Prim2SF x = S754_zero s.
Proof.
  unfold is_zero. rewrite FloatAxioms.eqb_spec.
  replace (Prim2SF zero) with (S754_zero false) by (vm_compute; reflexivity).
  unfold SFeqb, SFcompare.
  destruct (Prim2SF x) as [s|s| |s m e]; try destruct s; cbn;
    try discriminate; eauto.
Qed.

(** X6.  A zero step is not detected: the expected length is the
    conversion of an infinity or a NaN to [size_t], so [tabhl] has undefined
    behaviour whatever the table and [x]; [table] still throws its range
    error for an [x] outside the domain. *)
Theorem X6_zero_step (ytbl : list float) (x xstart xend xstep : float) :
  is_zero xstep = true ->
  expected_size xstart xend xstep = None /\
  dynamo.tabhl ytbl x xstart xend xstep = Undefined /\
  dynamo.table ytbl x xstart xend xstep =
  if dynamo.out_of_range x xstart xend then Throw DomainRangeError
  else Undefined.
Proof.
  intros Hz. destruct (is_zero_spec _ Hz) as [s Hs].
  assert (Hexp : expected_size xstart xend xstep = None).
  { unfold expected_size. cbn [to_size_t dadd ddiv dsub binary64].
    unfold Binary64.cast_size_t, Binary64.trunc.
    rewrite add_spec, div_spec, Hs.
    replace (Prim2SF (lit 1)) with (S754_finite false 4503599627370496 (-52))
      by (vm_compute; reflexivity).
    destruct (Prim2SF (PrimFloat.sub xend xstart)) as [s'|s'| |s' m e];
      try destruct s'; destruct s; reflexivity. }
  split; [exact Hexp|].
  assert (Htabhl : dynamo.tabhl ytbl x xstart xend xstep = Undefined).
  { unfold dynamo.tabhl. unfold expected_size in Hexp. rewrite Hexp.
    reflexivity. }
  split; [exact Htabhl|].
  unfold dynamo.table. rewrite Htabhl. reflexivity.
Qed.

Lemma X6_witness :
  dynamo.tabhl (D:=float) test.t1 (lit 3) (lit 3) (lit 4) (lit 0) = Undefined.
Proof.
  apply (X6_zero_step test.t1 (lit 3) (lit 3) (lit 4) (lit 0)).
  vm_compute. reflexivity.
Defined.


(** X7.  [clip] on doubles: the value after the switch when the time [d]
    is greater than the switch time [c], the value before it when the time
    is not greater (the switch time itself included), and the value after
    it when either of the two is NaN. *)
Theorem X7_clip_switch (a b c d : float) :
  ((c <? d) = true -> dynamo.clip a b c d = b) /\
  (is_nan c = false -> is_nan d = false -> (c <? d) = false ->
   dynamo.clip a b c d = a) /\
  (is_nan c = true \/ is_nan d = true -> dynamo.clip a b c d = b).
Proof.
  unfold dynamo.clip. cbn [dge dlt binary64]. split; [|split].
  - intros Hlt.
    destruct (is_nan c) eqn:Hc;
      [rewrite (NaNFacts.ltb_nan_l c d Hc) in Hlt; discriminate|].
    destruct (is_nan d) eqn:Hd;
      [rewrite (NaNFacts.ltb_nan_r c d Hd) in Hlt; discriminate|].
    rewrite (NaNFacts.leb_negb_ltb c d Hc Hd), Hlt. reflexivity.
  - intros Hc Hd Hge.
    rewrite (NaNFacts.leb_negb_ltb c d Hc Hd), Hge. reflexivity.
  - intros [Hc | Hd].
    + rewrite (NaNFacts.leb_nan_r d c Hc). reflexivity.
    + rewrite (NaNFacts.leb_nan_l d c Hd). reflexivity.
Qed.

Lemma X7_witness :
  dynamo.clip (D:=float) (lit 1) (lit 2) (lit 1970) (lit 1970.2) = lit 2 /\
  dynamo.clip (D:=float) (lit 1) (lit 2) (lit 1970) (lit 1970) = lit 1 /\
  dynamo.clip (D:=float) (lit 1) (lit 2) (lit 1970) nan = lit 2.
Proof.
  destruct (X7_clip_switch (lit 1) (lit 2) (lit 1970) (lit 1970.2))
    as [Hafter _].
  destruct (X7_clip_switch (lit 1) (lit 2) (lit 1970) (lit 1970))
    as [_ [Hat _]].
  destruct (X7_clip_switch (lit 1) (lit 2) (lit 1970) nan) as [_ [_ Hnan]].
  split; [|split].
  - apply Hafter. vm_compute. reflexivity.
  - apply Hat; vm_compute; reflexivity.
  - apply Hnan. right. vm_compute. reflexivity.
Defined.

(** X8.  [test_equal_double] accepts a finite value compared with itself,
    and reports a fault whenever one of the two values is NaN and when an
    infinity is compared with itself. *)
Theorem X8_test_equal_double_edges :
  (forall a : float, is_finite a = true -> test.test_equal_double a a = true) /\
  (forall a e : float, is_nan a = true \/ is_nan e = true ->
                       test.test_equal_double a e = false) /\
  test.test_equal_double infinity infinity = false /\
  test.test_equal_double neg_infinity neg_infinity = false.
Proof.
  split; [|split; [|split; vm_compute; reflexivity]].
  - intros a Ha. unfold test.test_equal_double.
    rewrite ltb_spec, abs_spec, sub_spec.
    replace (Prim2SF test.DBL_EPSILON) with (S754_finite false 4503599627370496 (-104))
      by (vm_compute; reflexivity).
    destruct (NaNFacts.is_finite_spec a Ha) as [[s ->] | [s [m [e ->]]]].
    + destruct s; reflexivity.
    + unfold SF64sub, SFsub. rewrite Z.sub_diag. reflexivity.
  - intros a e H. unfold test.test_equal_double.
    apply NaNFacts.ltb_nan_l. apply NaNFacts.is_nan_spec. rewrite abs_spec.
    assert (Hsub : is_nan (a - e)%float = true).
    { destruct H; [apply NaNFacts.sub_nan_l | apply NaNFacts.sub_nan_r];
        assumption. }
    apply NaNFacts.is_nan_spec in Hsub. rewrite Hsub. reflexivity.
Qed.

Lemma X8_witness :
  test.test_equal_double 0.5%float 0.5%float = true /\
  test.test_equal_double nan 0.5%float = false.
Proof.
  destruct X8_test_equal_double_edges as [Hrefl [Hnan _]].
  split.
  - apply Hrefl. vm_compute. reflexivity.
  - apply Hnan. left. vm_compute. reflexivity.
Defined.

End Binary64Edges.

(** ** Binary64: grid points and midpoints *)

Module ZeroFacts.

Lemma is_zero_intro (x : float) (s : bool) :
  Prim2SF x = S754_zero s -> is_zero x = true.
Proof.
  intros H. unfold is_zero. rewrite FloatAxioms.eqb_spec, H.
  replace (Prim2SF zero) with (S754_zero false) by (vm_compute; reflexivity).
  destruct s; reflexivity.
Qed.




Lemma mul_zero_finite (z d : float) (s : bool) :
  Prim2SF z = S754_zero s -> is_finite d = true ->
  exists s', Prim2SF (PrimFloat.mul z d) = S754_zero s'.
Proof.
  intros Hz Hd. rewrite mul_spec, Hz.
  destruct (NaNFacts.is_finite_spec d Hd) as [[sd ->] | [sd [m [e ->]]]];
    cbn; eauto.
Qed.

Lemma div_zero_l (z st : float) (s : bool) :
  Prim2SF z = S754_zero s -> is_zero st = false -> is_nan st = false ->
  exists s', Prim2SF (PrimFloat.div z st) = S754_zero s'.
Proof.
  intros Hz Hst Hnan. rewrite div_spec, Hz.
  destruct (Prim2SF st) as [ss|ss| |ss m e] eqn:E.
  - rewrite (is_zero_intro st ss E) in Hst. discriminate.
  - cbn. eauto.
  - apply NaNFacts.is_nan_spec in E. congruence.
  - cbn. eauto.
Qed.

Lemma sub_self_zero (x : float) :
  is_finite x = true -> exists s, Prim2SF (PrimFloat.sub x x) = S754_zero s.
Proof.
  intros Hx. rewrite sub_spec.
  destruct (NaNFacts.is_finite_spec x Hx) as [[sx ->] | [sx [m [e ->]]]].
  - destruct sx; cbn; eauto.
  - unfold SF64sub, SFsub. rewrite Z.sub_diag. cbn. eauto.
Qed.





End ZeroFacts.

Section Binary64Grid.

#[local] Set Warnings "-inexact-float".
Local Open Scope double_scope.









End Binary64Grid.

(** ** Runs of the engine *)

Section EngineExtras.

Context {D : Type} {DD : Double D}.
Local Open Scope double_scope.

Implicit Types (cs : constants D) (k : variables D) (w : world D).

Lemma run_length (n : nat) w : List.length (fst (run n w)) = n.
Proof.
  induction n as [|n IH]; cbn [run]; [reflexivity|].
  destruct (run n w) as [rs w']. destruct (tick w') as [r w''].
  cbn [fst List.length] in *. rewrite IH. reflexivity.
Qed.

(** X9.  Once a call of [tick] has thrown, every later call throws the
    same error and the engine stays as it was: calling again does not
    recover. *)
Theorem X9_failure_persists w (e : error) w' (n : nat) :
  tick w = (Throw e, w') ->
  run n w' = (repeat (Throw e) n, w) /\
  run_complete (snd (run n w')) = run_complete w.
Proof.
  intros H. destruct (tick_throw _ _ _ H) as [_ ->].
  assert (Hrun : run n w = (repeat (Throw e) n, w)).
  { induction n as [|n IH]; cbn [run repeat]; [reflexivity|].
    rewrite IH, H. reflexivity. }
  rewrite Hrun. split; reflexivity.
Qed.

(** X10.  Whatever the engine state and the outcomes of the calls, a run
    of [n] calls of [tick] has [n] outcomes, never changes the constants,
    and leaves in the engine the snapshot produced last; when no call
    produced a snapshot the engine is as it was. *)
Theorem X10_run_keeps_state w (n : nat) :
  List.length (fst (run n w)) = n /\
  c (snd (run n w)) = c w /\
  match last_produced (fst (run n w)) with
  | Some k => j (snd (run n w)) = k /\ time_j_exists_ (snd (run n w)) = true
  | None => snd (run n w) = w
  end.
Proof.
  split; [apply run_length|].
  induction n as [|n [IHc IHj]]; cbn [run].
  - split; reflexivity.
  - destruct (run n w) as [rs w1]. cbn [fst snd] in *.
    destruct (tick w1) as [r w2] eqn:Ht. cbn [fst snd].
    destruct r as [k|e|]; cbn [last_produced].
    + destruct (tick_snapshot _ _ _ Ht) as [_ [_ [_ [Hj [Hc He]]]]].
      rewrite Hc, IHc. auto.
    + destruct (tick_throw _ _ _ Ht) as [_ ->]. auto.
    + unfold tick in Ht. destruct (compute_k w1); inversion Ht; subst. auto.
Qed.

Lemma clip_same (a c d : D) : dynamo.clip a a c d = a.
Proof. unfold dynamo.clip. destruct (c >=? d); reflexivity. Qed.

(** X11.  When each of the seven pairs of policy values has its value
    before equal to its value after, as in the default constants, a call of
    [tick] does not depend on the switch times. *)
Theorem X11_equal_policies_ignore_switch_times
    cs (jv : variables D) (exists_ : bool) (s1 s2 s3 s4 s5 s6 s7 : D) :
  brn cs = brn1 cs -> nrun cs = nrun1 cs -> drn cs = drn1 cs ->
  cign cs = cign1 cs -> cidn cs = cidn1 cs -> poln cs = poln1 cs ->
  fc cs = fc1 cs ->
  fst (tick {| c := with_switch_times cs s1 s2 s3 s4 s5 s6 s7; j := jv;
               time_j_exists_ := exists_ |})
  = fst (tick {| c := cs; j := jv; time_j_exists_ := exists_ |}).
Proof.
  destruct cs. cbn [brn brn1 nrun nrun1 drn drn1 cign cign1 cidn cidn1
                    poln poln1 fc fc1 with_switch_times].
  intros -> -> -> -> -> -> ->.
  unfold tick, compute_k. cbn [c j time_j_exists_].
  unfold levels. cbn [c j time_j_exists_ dt ciaft pi nri cii poli ciafi time0].
  match goal with
  | |- fst match bind ?a ?f with _ => _ end
       = fst match bind ?b ?g with _ => _ end =>
      assert (Haux : a = b);
      [ | rewrite Haux; destruct b as [k| |]; cbn [bind]; [|reflexivity..] ]
  end.
  - unfold auxiliaries.
    cbn [nri ciafn ecirn la pdn pols fc fc1 swt7 fn qls].
    rewrite !clip_same. reflexivity.
  - unfold rates, rate_br, rate_nrur, rate_dr, rate_cig, rate_cid, rate_polg.
    cbn [brn brn1 swt1 nrun nrun1 swt2 drn drn1 swt3 cign cign1 swt4
         cidn cidn1 swt5 poln poln1 swt6 fst].
    rewrite !clip_same. reflexivity.
Qed.

End EngineExtras.

(** ** The time of the snapshots *)

Section EngineTime.

Context {D : Type} {DD : Double D}.
Local Open Scope double_scope.

(** The time of the snapshot produced last is the initial time with the
    step added once for every snapshot after the first. *)
Lemma run_time (cs : constants D) (n : nat) :
  let rs := fst (run n (construct cs)) in
  let w := snd (run n (construct cs)) in
  c w = cs /\
  match last_produced rs with
  | Some k =>
      j w = k /\ time_j_exists_ w = true /\
      (1 <= List.length (filter produced rs))%nat /\
      time k = Nat.iter (List.length (filter produced rs) - 1)
                 (fun t => t + dt cs) (time0 cs)
  | None => time_j_exists_ w = false /\ filter produced rs = []
  end.
Proof.
  induction n as [|n IH]; cbn [run].
  - cbn. auto.
  - destruct (run n (construct cs)) as [rs w1]. cbn [fst snd] in *.
    destruct IH as [Hc IH].
    destruct (tick w1) as [r w2] eqn:Ht. cbn [fst snd].
    destruct r as [k|e|]; cbn [last_produced filter produced].
    + destruct (tick_snapshot _ _ _ Ht)
        as [[_ [_ [_ [_ [_ Htime]]]]] [_ [_ [Hj [Hc' He]]]]].
      split; [congruence|]. split; [exact Hj|]. split; [exact He|].
      cbn [List.length]. split; [lia|].
      rewrite Htime. unfold levels.
      destruct (last_produced rs) as [k0|].
      * destruct IH as [Hj0 [He0 [Hcount Ht0]]].
        rewrite He0, Hj0, Hc. cbn [time with_levels].
        rewrite Ht0.
        replace (S (List.length (filter produced rs)) - 1)%nat
          with (S (List.length (filter produced rs) - 1)) by lia.
        reflexivity.
      * destruct IH as [He0 Hnone]. rewrite He0, Hnone, Hc.
        cbn [time with_levels List.length]. reflexivity.
    + destruct (tick_throw _ _ _ Ht) as [_ ->]. split; [exact Hc|].
      destruct (last_produced rs); exact IH.
    + unfold tick in Ht.
      destruct (compute_k w1); [discriminate Ht | discriminate Ht |].
      injection Ht as <-.
      split; [exact Hc|]. destruct (last_produced rs); exact IH.
Qed.

(** X12.  The time of a snapshot does not depend on the state of the model:
    the [m]-th snapshot that an engine produces has the time obtained from
    the initial time by adding [dt] to it [m - 1] times, one addition of
    doubles after the other, and the run is complete exactly when a
    snapshot has been produced and that sum is greater than the end
    time. *)
Theorem X12_time_of_snapshots (cs : constants D) (n : nat) :
  let rs := fst (run n (construct cs)) in
  let w := snd (run n (construct cs)) in
  let m := List.length (filter produced rs) in
  let t := Nat.iter (m - 1) (fun t => t + dt cs) (time0 cs) in
  (forall k, last_produced rs = Some k -> time k = t) /\
  (run_complete w = true <-> (1 <= m)%nat /\ (t >? endtime cs) = true).
Proof.
  intros rs w m t. pose proof (run_time cs n) as H.
  cbn zeta in H. fold rs w in H. destruct H as [Hc H]. split.
  - intros k Hk. rewrite Hk in H. destruct H as [_ [_ [_ Ht]]]. exact Ht.
  - unfold run_complete. destruct (last_produced rs) as [k|].
    + destruct H as [Hj [He [Hcount Ht]]]. rewrite He, Hj, Hc, Ht.
      cbn [andb]. fold m t. split; [intros Hlt; split; [exact Hcount | exact Hlt]
                                   | intros [_ Hlt]; exact Hlt].
    + destruct H as [He Hnone]. rewrite He. cbn [andb].
      split; [discriminate|]. unfold m. rewrite Hnone. cbn. lia.
Qed.

End EngineTime.

(** ** Binary64: runs that never complete *)

Section Binary64Time.

Local Open Scope double_scope.

Lemma ltb_add_zero (e x z : float) :
  is_zero z = true -> PrimFloat.ltb e (PrimFloat.add x z) = PrimFloat.ltb e x.
Proof.
  intros Hz. destruct (is_zero_spec _ Hz) as [s Hs].
  rewrite !ltb_spec, add_spec, Hs. unfold SF64add, SFadd, SFltb, SFcompare.
  destruct (Prim2SF x) as [sx|sx| |sx mx ex]; try reflexivity.
  destruct sx, s; destruct (Prim2SF e); reflexivity.
Qed.

Lemma ltb_add_nan (e x z : float) :
  is_nan z = true -> PrimFloat.ltb e (PrimFloat.add x z) = false.
Proof.
  intros Hz. apply NaNFacts.ltb_nan_r. apply NaNFacts.is_nan_spec.
  apply NaNFacts.is_nan_spec in Hz. rewrite add_spec, Hz.
  unfold SF64add, SFadd. destruct (Prim2SF x); reflexivity.
Qed.

(** X13.  With a time step that is zero or NaN and an initial time that is
    not greater than the end time, the run is never complete, however many
    calls of [tick] are made. *)
Theorem X13_run_never_completes (cs : constants float) (n : nat) :
  is_zero (dt cs) = true \/ is_nan (dt cs) = true ->
  (time0 cs >? endtime cs) = false ->
  run_complete (snd (run n (construct cs))) = false.
Proof.
  intros Hdt Ht0.
  assert (Hinv : c (snd (run n (construct cs))) = cs /\
                 (time_j_exists_ (snd (run n (construct cs))) = true ->
                  (time (j (snd (run n (construct cs)))) >? endtime cs) = false)).
  { induction n as [|n [IHc IHt]]; cbn [run].
    - split; [reflexivity | discriminate].
    - destruct (run n (construct cs)) as [rs w1]. cbn [fst snd] in *.
      destruct (tick w1) as [r w2] eqn:Ht. cbn [snd].
      destruct r as [k|e|].
      + destruct (tick_snapshot _ _ _ Ht)
          as [[_ [_ [_ [_ [_ Htime]]]]] [_ [_ [Hj [Hc He]]]]].
        split; [congruence|]. intros _. rewrite Hj, Htime. unfold levels.
        rewrite IHc. destruct (time_j_exists_ w1).
        * cbn [time with_levels dadd dlt binary64].
          destruct Hdt as [Hz | Hnan].
          -- rewrite (ltb_add_zero _ _ _ Hz). apply IHt. reflexivity.
          -- apply ltb_add_nan, Hnan.
        * exact Ht0.
      + destruct (tick_throw _ _ _ Ht) as [_ ->]. auto.
      + unfold tick in Ht.
        destruct (compute_k w1); [discriminate Ht | discriminate Ht |].
        injection Ht as <-. auto. }
  destruct Hinv as [Hc Ht]. unfold run_complete.
  destruct (time_j_exists_ _); [|reflexivity].
  rewrite Hc. cbn [andb]. apply Ht. reflexivity.
Qed.

End Binary64Time.

(** ** The graph *)

Module StringFacts.

Local Open Scope string_scope.
Local Open Scope Z_scope.

Lemma append_assoc (a b c : string) : (a ++ b) ++ c = a ++ (b ++ c).
Proof. induction a as [|x a IH]; cbn; [reflexivity | now rewrite IH]. Qed.

Lemma append_nil_r (a : string) : a ++ "" = a.
Proof. induction a as [|x a IH]; cbn; [reflexivity | now rewrite IH]. Qed.

Lemma append_empty (a b : string) :
  graph.empty (a ++ b) = graph.empty a && graph.empty b.
Proof. destruct a; reflexivity. Qed.

Lemma put_nat_length (line : string) (i : nat) (c : Ascii.ascii) :
  String.length (graph.put_nat line i c) = String.length line.
Proof.
  revert i. induction line as [|a s IH]; intros [|i]; cbn; auto.
Qed.

Lemma get_put_nat_same (line : string) (i : nat) (c : Ascii.ascii) :
  (i < String.length line)%nat ->
  String.get i (graph.put_nat line i c) = Some c.
Proof.
  revert i. induction line as [|a s IH]; intros [|i] Hi; cbn in *;
    try lia; [reflexivity | apply IH; lia].
Qed.

Lemma get_put_nat_other (line : string) (i j : nat) (c : Ascii.ascii) :
  i <> j -> String.get j (graph.put_nat line i c) = String.get j line.
Proof.
  revert i j. induction line as [|a s IH]; intros [|i] [|j] Hij; cbn;
    try reflexivity; try congruence.
  apply IH. congruence.
Qed.

Lemma get_some (line : string) (i : nat) :
  (i < String.length line)%nat -> exists c, String.get i line = Some c.
Proof.
  revert i. induction line as [|a s IH]; intros [|i] Hi; cbn in *; try lia.
  - now exists a.
  - apply IH. lia.
Qed.

Lemma put_value (line : string) (i : Z) (c : Ascii.ascii) (line' : string) :
  graph.put line i c = Value line' ->
  String.length line' = String.length line /\
  graph.get line' i = Value c /\
  (forall j, j <> i -> graph.get line' j = graph.get line j).
Proof.
  unfold graph.put, graph.get.
  destruct ((0 <=? i) && (i <? Z.of_nat (String.length line))) eqn:Hr;
    [|discriminate].
  intros [= <-]. rewrite put_nat_length. rewrite Hr.
  apply andb_true_iff in Hr. destruct Hr as [H0 H1].
  apply Z.leb_le in H0. apply Z.ltb_lt in H1.
  split; [reflexivity|]. split.
  - rewrite get_put_nat_same by lia. reflexivity.
  - intros j Hj.
    destruct ((0 <=? j) && (j <? Z.of_nat (String.length line))) eqn:Hr;
      [|reflexivity].
    apply andb_true_iff in Hr. destruct Hr as [Hj0 Hj1].
    apply Z.leb_le in Hj0. apply Z.ltb_lt in Hj1.
    rewrite get_put_nat_other by lia. reflexivity.
Qed.

Lemma get_value_put (line : string) (i : Z) (ch c : Ascii.ascii) :
  graph.get line i = Value ch -> exists line', graph.put line i c = Value line'.
Proof.
  unfold graph.put, graph.get.
  destruct ((0 <=? i) && (i <? Z.of_nat (String.length line)));
    [eauto | discriminate].
Qed.

Lemma get_in (line : string) (i : nat) (c : Ascii.ascii) :
  String.get i line = Some c -> In c (list_ascii_of_string line).
Proof.
  revert i. induction line as [|a s IH]; intros [|i] H; cbn in *;
    try discriminate.
  - injection H as ->. now left.
  - right. eapply IH. exact H.
Qed.

Lemma get_free (line : string) (i : Z) (c : Ascii.ascii) :
  forallb graph.free (list_ascii_of_string line) = true ->
  graph.get line i = Value c -> graph.free c = true.
Proof.
  intros Hall. unfold graph.get. destruct (_ && _); [|discriminate].
  destruct (String.get (Z.to_nat i) line) as [ch|] eqn:Hg; [|discriminate].
  cbn [defined]. intros [= <-]. rewrite forallb_forall in Hall.
  apply Hall. eapply get_in. exact Hg.
Qed.

End StringFacts.

Section GraphText.

Local Open Scope string_scope.

Lemma join_from (joiner : string) (strings : list string) (acc : string) :
  graph.empty acc = false ->
  fold_left
    (fun result s =>
       (if negb (graph.empty result) then result ++ joiner else result) ++ s)
    strings acc
  = acc ++ fold_right (fun s r => joiner ++ s ++ r) "" strings.
Proof.
  revert acc. induction strings as [|s rest IH]; intros acc Hacc;
    cbn [fold_left fold_right].
  - now rewrite StringFacts.append_nil_r.
  - rewrite Hacc. cbn [negb]. rewrite IH.
    + now rewrite !StringFacts.append_assoc.
    + rewrite !StringFacts.append_empty, Hacc. reflexivity.
Qed.

Lemma concat_cons (joiner s : string) (rest : list string) :
  String.concat joiner (s :: rest)
  = s ++ fold_right (fun s r => joiner ++ s ++ r) "" rest.
Proof.
  revert s. induction rest as [|s' rest IH]; intros s.
  - cbn. now rewrite StringFacts.append_nil_r.
  - cbn [String.concat fold_right]. cbn [String.concat] in IH. now rewrite IH.
Qed.

(** X14.  [graph::join] puts the joiner between the strings from the first
    non-empty one on; the empty strings before it leave no joiner. *)
Theorem X14_join_concat (strings : list string) (joiner : string) :
  graph.join strings joiner = String.concat joiner (drop_empty strings).
Proof.
  unfold graph.join. induction strings as [|s rest IH].
  - reflexivity.
  - cbn [fold_left graph.empty negb drop_empty append].
    destruct s as [|a s].
    + cbn [graph.empty]. exact IH.
    + cbn [graph.empty]. rewrite join_from by reflexivity.
      now rewrite concat_cons.
Qed.

Context {D : Type} {DD : Double D}.

Lemma plot_calls_from (calls : list (string * graph.plotvar D)) (g : graph.graph D) :
  graph.w_ (plot_calls g calls) = graph.w_ g /\
  graph.plotvars_ (plot_calls g calls) = (graph.plotvars_ g ++ map snd calls)%list /\
  graph.ledgend_ (plot_calls g calls)
  = fold_left
      (fun result s =>
         (if negb (graph.empty result) then result ++ "," else result) ++ s)
      (map legend_entry calls) (graph.ledgend_ g).
Proof.
  revert g. induction calls as [|[name [v sy lo hi]] rest IH]; intros g.
  - cbn. now rewrite app_nil_r.
  - unfold plot_calls in *. cbn [fold_left map]. destruct (IH (graph.plot g v name sy lo hi))
      as [Hw [Hp Hl]]. cbn [fst snd graph.vptr graph.symbol graph.low graph.high].
    rewrite Hw, Hp, Hl. cbn [graph.plot graph.w_ graph.plotvars_ graph.ledgend_].
    split; [reflexivity|]. split.
    + now rewrite <- app_assoc.
    + f_equal. unfold legend_entry. cbn [fst snd graph.symbol].
      rewrite !StringFacts.append_assoc. reflexivity.
Qed.

(** X15.  After any sequence of calls of [graph::plot] on a new graph, the
    legend is the entries [name=symbol] of the calls, in order, separated
    by commas, and the plotted variables are those of the calls, in
    order; the engine is untouched. *)
Theorem X15_plot_legend (cs : constants D) (calls : list (string * graph.plotvar D)) :
  let g := plot_calls (graph.construct cs) calls in
  graph.ledgend_ g = String.concat "," (map legend_entry calls) /\
  graph.plotvars_ g = map snd calls /\
  graph.w_ g = world2.construct cs.
Proof.
  cbn zeta. destruct (plot_calls_from calls (graph.construct cs)) as [Hw [Hp Hl]].
  rewrite Hw, Hp, Hl. cbn [graph.construct graph.w_ graph.plotvars_ graph.ledgend_ app].
  split; [|split; reflexivity].
  destruct calls as [|c rest]; [reflexivity|].
  cbn [map fold_left graph.empty negb append].
  assert (He : graph.empty (legend_entry c) = false).
  { unfold legend_entry. rewrite StringFacts.append_empty. apply andb_false_r. }
  rewrite join_from by exact He. now rewrite concat_cons.
Qed.

End GraphText.

(** ** The graph: one row *)

Section GraphRow.

Context {D : Type} {DD : Double D} {DR : DoubleRound D}.

Lemma listed_add_same (m : graph.intersects) (k c : Ascii.ascii) :
  listed (graph.add_intersect m k c) k c.
Proof.
  induction m as [|[k' s] m IH]; cbn [graph.add_intersect].
  - exists (String c ""). split; [now left | now left].
  - destruct (Ascii.eqb k k') eqn:He.
    + apply Ascii.eqb_eq in He. subst k'.
      exists (s ++ String c "")%string. split; [now left|].
      clear. induction s as [|a s IH]; cbn; auto.
    + destruct (Ascii.ltb k k').
      * exists (String c ""). split; [now left | now left].
      * destruct IH as [s' [Hin Hc]]. exists s'. split; [now right | exact Hc].
Qed.

Lemma listed_add_mono (m : graph.intersects) (k c k' c' : Ascii.ascii) :
  listed m k' c' -> listed (graph.add_intersect m k c) k' c'.
Proof.
  intros [s [Hin Hc]]. induction m as [|[k0 s0] m IH]; [destruct Hin|].
  cbn [graph.add_intersect]. destruct (Ascii.eqb k k0) eqn:He.
  - destruct Hin as [[= -> ->] | Hin].
    + exists (s ++ String c "")%string. split; [now left|].
      clear - Hc. induction s as [|a s IH]; cbn in *; [destruct Hc|].
      destruct Hc as [-> | Hc]; auto.
    + exists s. split; [now right | exact Hc].
  - destruct (Ascii.ltb k k0).
    + exists s. split; [now right | exact Hc].
    + destruct Hin as [[= -> ->] | Hin].
      * exists s. split; [now left | exact Hc].
      * destruct (IH Hin) as [s' [Hin' Hc']]. exists s'. split; [now right | exact Hc'].
Qed.

(** What one pass of the loop body does. *)
Lemma draw_value (vars : variables D) (line0 : string) (m0 : graph.intersects)
    (pv : graph.plotvar D) (line1 : string) (m1 : graph.intersects) :
  graph.draw vars (line0, m0) pv = Value (line1, m1) ->
  exists y,
    graph.calc_y (graph.vptr pv vars) (graph.low pv) (graph.high pv)
      graph.default_graph_width = Value y /\
    ((wrap_size_t y < 61 /\
      exists ch, graph.get line0 (wrap_size_t y) = Value ch /\
        ((graph.free ch = true /\
          graph.put line0 (wrap_size_t y) (graph.symbol pv) = Value line1 /\
          m1 = m0) \/
         (graph.free ch = false /\ line1 = line0 /\
          m1 = graph.add_intersect m0 ch (graph.symbol pv)))) \/
     (61 <= wrap_size_t y /\ line1 = line0 /\ m1 = m0)).
Proof.
  unfold graph.draw.
  destruct (graph.calc_y _ _ _ _) as [y| |]; cbn [bind]; try discriminate.
  intros H. exists y. split; [reflexivity|].
  change (graph.default_graph_width + 1) with 61 in H.
  destruct (wrap_size_t y <? 61) eqn:Hy.
  - apply Z.ltb_lt in Hy. left. split; [exact Hy|]. cbn [fst snd] in H.
    destruct (graph.get line0 (wrap_size_t y)) as [ch| |]; cbn [bind] in H;
      try discriminate.
    exists ch. split; [reflexivity|].
    destruct (graph.free ch).
    + left. destruct (graph.put line0 (wrap_size_t y) (graph.symbol pv));
        cbn [bind] in H; try discriminate.
      injection H as <- <-. auto.
    + right. injection H as <- <-. auto.
  - apply Z.ltb_ge in Hy. right. injection H as <- <-. auto.
Qed.

Lemma draw_all_spec (vars : variables D) (pvs : list (graph.plotvar D)) :
  forall (line0 : string) (m0 : graph.intersects) (line : string)
         (m : graph.intersects),
  Forall (fun pv => graph.free (graph.symbol pv) = false) pvs ->
  graph.draw_all vars pvs (line0, m0) = Value (line, m) ->
  String.length line = String.length line0 /\
  (forall i c, graph.get line0 i = Value c -> graph.free c = false ->
               graph.get line i = Value c) /\
  (forall k c, listed m0 k c -> listed m k c) /\
  (forall pv, In pv pvs ->
     exists y,
       graph.calc_y (graph.vptr pv vars) (graph.low pv) (graph.high pv)
         graph.default_graph_width = Value y /\
       (wrap_size_t y < 61 -> shown line m (wrap_size_t y) (graph.symbol pv))) /\
  (forall i,
     (forall pv y, In pv pvs ->
        graph.calc_y (graph.vptr pv vars) (graph.low pv) (graph.high pv)
          graph.default_graph_width = Value y ->
        wrap_size_t y <> i) ->
     graph.get line i = graph.get line0 i) /\
  (forall i c, graph.get line i = Value c -> graph.free c = false ->
     graph.get line0 i = Value c \/
     exists pv y, In pv pvs /\ graph.symbol pv = c /\
       graph.calc_y (graph.vptr pv vars) (graph.low pv) (graph.high pv)
         graph.default_graph_width = Value y /\
       wrap_size_t y = i).
Proof.
  induction pvs as [|pv pvs IH]; intros line0 m0 line m Hsym Hrun.
  - cbn in Hrun. injection Hrun as <- <-.
    repeat match goal with |- _ /\ _ => split end; auto.
    intros pv [].
  - cbn [graph.draw_all] in Hrun.
    destruct (graph.draw vars (line0, m0) pv) as [[line1 m1]| |] eqn:Hd;
      cbn [bind] in Hrun; try discriminate.
    inversion Hsym as [|? ? Hpv Hrest]; subst.
    destruct (IH _ _ _ _ Hrest Hrun) as [Hlen [Hkeep [Hmono [Hshown [Hsame Horigin]]]]].
    destruct (draw_value _ _ _ _ _ _ Hd) as [y [Hy Hcase]].
    assert (Hstep :
      String.length line1 = String.length line0 /\
      (forall i c, graph.get line0 i = Value c -> graph.free c = false ->
                   graph.get line1 i = Value c) /\
      (forall k c, listed m0 k c -> listed m1 k c) /\
      (wrap_size_t y < 61 ->
         (graph.get line1 (wrap_size_t y) = Value (graph.symbol pv)) \/
         exists k, graph.get line1 (wrap_size_t y) = Value k /\
                   graph.free k = false /\ listed m1 k (graph.symbol pv)) /\
      (forall i, wrap_size_t y <> i -> graph.get line1 i = graph.get line0 i) /\
      (forall i c, graph.get line1 i = Value c -> graph.free c = false ->
         graph.get line0 i = Value c \/
         (graph.symbol pv = c /\ wrap_size_t y = i))).
    { destruct Hcase as [[Hlt [ch [Hch [[Hfree [Hput ->]] | [Hfree [-> ->]]]]]]
                        | [Hge [-> ->]]].
      - destruct (StringFacts.put_value _ _ _ _ Hput) as [Hl [Hg Ho]].
        split; [exact Hl|]. split.
        { intros i c Hi Hc. destruct (Z.eq_dec i (wrap_size_t y)) as [-> | Hne].
          - rewrite Hch in Hi. injection Hi as ->. congruence.
          - rewrite Ho by exact Hne. exact Hi. }
        split; [auto|]. split; [auto|]. split.
        { intros i Hi. apply Ho. congruence. }
        intros i c Hi Hc. destruct (Z.eq_dec i (wrap_size_t y)) as [-> | Hne].
        + right. rewrite Hg in Hi. injection Hi as ->. auto.
        + left. rewrite Ho in Hi by exact Hne. exact Hi.
      - split; [reflexivity|]. split; [auto|]. split.
        { intros k c. apply listed_add_mono. }
        split.
        { intros _. right. exists ch. split; [exact Hch|]. split; [exact Hfree|].
          apply listed_add_same. }
        split; auto.
      - split; [reflexivity|]. split; [auto|]. split; [auto|].
        split; [lia|]. split; auto. }
    destruct Hstep as [Hl1 [Hk1 [Hm1 [Hs1 [Ho1 Hor1]]]]].
    split; [congruence|]. split; [auto|]. split; [auto|]. split.
    { intros pv' [<- | Hin].
      - exists y. split; [exact Hy|]. intros Hlt.
        destruct (Hs1 Hlt) as [Hg | [k [Hg [Hf Hli]]]].
        + left. apply Hkeep; assumption.
        + right. exists k. split; [apply Hkeep; assumption|]. split; [exact Hf|].
          apply Hmono, Hli.
      - apply Hshown, Hin. }
    split.
    { intros i Hi. rewrite Hsame.
      - apply Ho1. apply (Hi pv y); [now left | exact Hy].
      - intros pv' y' Hin. apply Hi. now right. }
    intros i c Hi Hc. destruct (Horigin i c Hi Hc) as [Hg | [pv' [y' [Hin Hrest']]]].
    + destruct (Hor1 i c Hg Hc) as [Hg0 | [Hs Hw]].
      * now left.
      * right. exists pv, y. split; [now left|]. auto.
    + right. exists pv', y'. split; [now right | exact Hrest'].
Qed.

(** X16.  The loop of [graph::run] over the plotted variables loses no
    symbol.  When no symbol is a blank, a dash or a dot, and the row is
    drawn on a line of blanks, dashes and dots, then for every plotted
    variable whose column (the result of [calc_y], converted to [size_t]) is
    on the line, the symbol stands at that column or is recorded in
    [intersects] under the symbol that stands there; a column that no
    variable has keeps its character; and every symbol on the line is that
    of a plotted variable with that column. *)
Theorem X16_row_shows_every_symbol (vars : variables D)
    (pvs : list (graph.plotvar D)) (line0 line : string) (m : graph.intersects) :
  Forall (fun pv => graph.free (graph.symbol pv) = false) pvs ->
  forallb graph.free (list_ascii_of_string line0) = true ->
  graph.draw_all vars pvs (line0, []) = Value (line, m) ->
  String.length line = String.length line0 /\
  (forall pv, In pv pvs ->
     exists y,
       graph.calc_y (graph.vptr pv vars) (graph.low pv) (graph.high pv)
         graph.default_graph_width = Value y /\
       (wrap_size_t y < 61 -> shown line m (wrap_size_t y) (graph.symbol pv))) /\
  (forall i,
     (forall pv y, In pv pvs ->
        graph.calc_y (graph.vptr pv vars) (graph.low pv) (graph.high pv)
          graph.default_graph_width = Value y ->
        wrap_size_t y <> i) ->
     graph.get line i = graph.get line0 i) /\
  (forall i c, graph.get line i = Value c -> graph.free c = false ->
     exists pv y, In pv pvs /\ graph.symbol pv = c /\
       graph.calc_y (graph.vptr pv vars) (graph.low pv) (graph.high pv)
         graph.default_graph_width = Value y /\
       wrap_size_t y = i).
Proof.
  intros Hsym Hfree Hrun.
  destruct (draw_all_spec vars pvs _ _ _ _ Hsym Hrun)
    as [Hlen [_ [_ [Hshown [Hsame Horigin]]]]].
  split; [exact Hlen|]. split; [exact Hshown|]. split; [exact Hsame|].
  intros i c Hi Hc. destruct (Horigin i c Hi Hc) as [Hg | H]; [|exact H].
  apply (StringFacts.get_free _ _ _ Hfree) in Hg. congruence.
Qed.

End GraphRow.

(** ** The graph: scales without a column *)

Section GraphUndefined.

Context {D : Type} {DD : Double D} {DR : DoubleRound D}.

Lemma draw_not_throw (vars : variables D) (st : string * graph.intersects)
    (pv : graph.plotvar D) (e : error) :
  graph.draw vars st pv <> Throw e.
Proof.
  unfold graph.draw, graph.calc_y, graph.get, graph.put.
  destruct (to_int _) as [y|]; cbn [defined bind]; [|discriminate].
  destruct (_ <? _); [|discriminate].
  destruct (_ && _); cbn [bind]; [|discriminate].
  destruct (String.get _ _) as [ch|]; cbn [defined bind]; [|discriminate].
  destruct (graph.free ch); [|discriminate].
  cbn [bind]. discriminate.
Qed.

Lemma draw_all_undefined (vars : variables D) (pvs : list (graph.plotvar D))
    (pv : graph.plotvar D) :
  In pv pvs ->
  graph.calc_y (graph.vptr pv vars) (graph.low pv) (graph.high pv)
    graph.default_graph_width = Undefined ->
  forall st, graph.draw_all vars pvs st = Undefined.
Proof.
  intros Hin Hy. induction pvs as [|pv' pvs IH]; [destruct Hin|].
  intros st. cbn [graph.draw_all]. destruct Hin as [-> | Hin].
  - unfold graph.draw. rewrite Hy. reflexivity.
  - destruct (graph.draw vars st pv') as [st'|e|] eqn:Hd; cbn [bind].
    + apply IH, Hin.
    + exfalso. exact (draw_not_throw _ _ _ _ Hd).
    + reflexivity.
Qed.

End GraphUndefined.

Lemma background_value (row_counter : Z) :
  exists line, graph.background row_counter = Value line /\
    String.length line = 61%nat /\
    forallb graph.free (list_ascii_of_string line) = true.
Proof.
  unfold graph.background. cbv zeta.
  destruct (graph.dots _ _ _ _) as [l| |] eqn:Ed;
    [| vm_compute in Ed; discriminate Ed ..].
  cbn [bind]. vm_compute in Ed. injection Ed as <-.
  destruct (_ =? 0).
  - eexists. split; [vm_compute; reflexivity|]. split; vm_compute; reflexivity.
  - eexists. split; [reflexivity|]. split; vm_compute; reflexivity.
Qed.

Section Binary64Graph.

Local Open Scope double_scope.

Lemma SFeqb_sub (x y : spec_float) :
  SFeqb x y = true ->
  SFsub prec emax y x = S754_nan \/ exists s, SFsub prec emax y x = S754_zero s.
Proof.
  unfold SFeqb, SFcompare, SFsub.
  destruct x as [sx|sx| |sx mx ex]; destruct y as [sy|sy| |sy my ey];
    try discriminate; try destruct sx; try destruct sy; try discriminate;
    eauto; intros H.
  - destruct (Z.compare ex ey) eqn:He; try discriminate.
    apply Z.compare_eq in He. subst ey.
    destruct (Pos.compare_cont Eq mx my) eqn:Hm; try discriminate.
    apply Pos.compare_eq in Hm. subst my.
    right. rewrite Z.sub_diag. cbn [binary_normalize]. eauto.
  - destruct (Z.compare ex ey) eqn:He; try discriminate.
    apply Z.compare_eq in He. subst ey.
    destruct (Pos.compare_cont Eq mx my) eqn:Hm; try discriminate.
    apply Pos.compare_eq in Hm. subst my.
    right. rewrite Z.sub_diag. cbn [binary_normalize]. eauto.
Qed.

Lemma not_finite_column (r : float) :
  (Prim2SF r = S754_nan \/ exists s, Prim2SF r = S754_infinity s) ->
  to_int (dround r) = None.
Proof.
  intros H. cbn [to_int dround binary64_round].
  unfold Binary64Round.round, Binary64Round.cast_int, Binary64.trunc.
  destruct H as [H | [s H]]; rewrite H; rewrite H; reflexivity.
Qed.

Lemma mul_not_finite (r n : float) :
  (Prim2SF r = S754_nan \/ exists s, Prim2SF r = S754_infinity s) ->
  Prim2SF (PrimFloat.mul r n) = S754_nan \/
  exists s, Prim2SF (PrimFloat.mul r n) = S754_infinity s.
Proof.
  intros H. rewrite mul_spec. unfold SF64mul, SFmul.
  destruct H as [-> | [s ->]]; [now left|].
  destruct (Prim2SF n); eauto.
Qed.

Lemma div_nan_r (x y : float) : is_nan y = true -> is_nan (x / y) = true.
Proof.
  rewrite !NaNFacts.is_nan_spec, div_spec. intros ->. unfold SF64div, SFdiv.
  destruct (Prim2SF x); reflexivity.
Qed.

Lemma div_zero_not_finite (a d : float) :
  (Prim2SF d = S754_nan \/ exists s, Prim2SF d = S754_zero s) ->
  Prim2SF (PrimFloat.div a d) = S754_nan \/
  exists s, Prim2SF (PrimFloat.div a d) = S754_infinity s.
Proof.
  intros H. rewrite div_spec. unfold SF64div, SFdiv.
  destruct H as [-> | [s ->]]; destruct (Prim2SF a); eauto.
Qed.

Lemma calc_y_undefined (value lo hi : float) (n : Z) :
  PrimFloat.eqb lo hi = true \/ is_nan value = true \/
  is_nan lo = true \/ is_nan hi = true ->
  graph.calc_y value lo hi n = Undefined.
Proof.
  intros H. unfold graph.calc_y. rewrite not_finite_column; [reflexivity|].
  cbn [dmul ddiv dsub binary64]. apply mul_not_finite.
  destruct H as [H | [H | [H | H]]].
  - apply div_zero_not_finite. rewrite sub_spec.
    rewrite FloatAxioms.eqb_spec in H. apply SFeqb_sub, H.
  - left. apply NaNFacts.is_nan_spec, NaNFacts.div_nan_l, NaNFacts.sub_nan_l, H.
  - left. apply NaNFacts.is_nan_spec, NaNFacts.div_nan_l, NaNFacts.sub_nan_r, H.
  - left. apply NaNFacts.is_nan_spec, div_nan_r, NaNFacts.sub_nan_l, H.
Qed.

(** X18.  A scale whose bounds are equal, or a NaN among the bounds and the
    value, leaves [calc_y] without a defined result, whatever the number of
    divisions: the quotient is an infinity or a NaN, which no [int] holds.
    A graph with such a plotted variable has no defined row. *)
Theorem X18_degenerate_scale (g : graph.graph float) (pv : graph.plotvar float)
    (vars : variables float) :
  In pv (graph.plotvars_ g) ->
  PrimFloat.eqb (graph.low pv) (graph.high pv) = true \/
  is_nan (graph.vptr pv vars) = true \/
  is_nan (graph.low pv) = true \/ is_nan (graph.high pv) = true ->
  (forall n,
     graph.calc_y (graph.vptr pv vars) (graph.low pv) (graph.high pv) n
     = Undefined) /\
  (forall row_counter, graph.row g row_counter vars = Undefined).
Proof.
  intros Hin H. split.
  - intros n. apply calc_y_undefined, H.
  - intros rc. unfold graph.row.
    destruct (background_value rc) as [line [-> _]]. cbn [bind].
    rewrite (draw_all_undefined vars _ pv Hin); [reflexivity|].
    apply calc_y_undefined, H.
Qed.

End Binary64Graph.

(** ** The graph: the column of the lower bound *)

Section Binary64Column.

Local Open Scope double_scope.

(** X17.  In binary64 the lower bound of a scale is drawn in column 0: for
    a finite [scale_lo] and a scale whose width [scale_hi - scale_lo] is
    neither zero nor NaN, [calc_y] of the value [scale_lo] on
    [graph_width] divisions is [0]. *)
Theorem X17_calc_y_lower_bound (scale_lo scale_hi : float) :
  is_finite scale_lo = true ->
  is_zero (scale_hi - scale_lo) = false ->
  is_nan (scale_hi - scale_lo) = false ->
  graph.calc_y scale_lo scale_lo scale_hi graph.default_graph_width = Value 0.
Proof.
  intros Hlo Hz Hnan.
  destruct (ZeroFacts.sub_self_zero _ Hlo) as [s0 H0].
  destruct (ZeroFacts.div_zero_l _ _ _ H0 Hz Hnan) as [s1 H1].
  assert (H2 : exists s, Prim2SF (PrimFloat.mul
                 (PrimFloat.div (PrimFloat.sub scale_lo scale_lo)
                    (PrimFloat.sub scale_hi scale_lo))
                 (Binary64.of_Z graph.default_graph_width)) = S754_zero s).
  { apply (ZeroFacts.mul_zero_finite _ _ _ H1). vm_compute. reflexivity. }
  destruct H2 as [s2 H2].
  unfold graph.calc_y. cbn [dsub ddiv dmul binary64 of_int dround to_int binary64_round].
  unfold Binary64Round.round. rewrite H2.
  unfold Binary64Round.cast_int, Binary64.trunc. rewrite H2. reflexivity.
Qed.

End Binary64Column.

(** ** The graph: the rows of a run *)

Section GraphRun.

Context {D : Type} {DD : Double D} {DR : DoubleRound D}.

(** The first call of [n + 1] calls, taken apart from the others. *)
Lemma run_shift (n : nat) (w : world D) :
  run (S n) w =
  (fst (run n (snd (tick w))) ++ [fst (tick w)], snd (run n (snd (tick w)))).
Proof.
  induction n as [|n IH].
  - cbn [run]. destruct (tick w) as [r w1]. reflexivity.
  - change (run (S (S n)) w)
      with (let '(rs, w') := run (S n) w in
            let '(r, w'') := tick w' in (r :: rs, w'')).
    rewrite IH. cbn [run]. destruct (run n (snd (tick w))) as [rs w2].
    cbn [fst snd]. destruct (tick w2) as [r w3]. reflexivity.
Qed.

(** The loop over [n] calls that all produce a snapshot, none of which
    completes the run before the last. *)
Lemma run_loop_steps (g : graph.graph D) (n : nat) :
  forall (w : world D) (i rc : Z) (lines : list (option D * string)) (fuel : nat),
  forallb produced (fst (run n w)) = true ->
  (forall m, (m < n)%nat -> run_complete (snd (run m w)) = false) ->
  0 <= i -> i + Z.of_nat n < SIZE_MAX1 -> 0 <= rc <= i ->
  graph.run_loop (n + fuel) g w i rc lines =
  match rows_from g rc (sample_from i (snapshots (rev (fst (run n w))))) with
  | Value ls =>
      graph.run_loop fuel g (snd (run n w)) (i + Z.of_nat n)
        (rc + Z.of_nat (List.length ls)) (lines ++ ls)
  | Throw e => Some (Throw e)
  | Undefined => Some Undefined
  end.
Proof.
  induction n as [|n IH]; intros w i rc lines fuel Hprod Hrun Hi Hin Hrc.
  - cbn. rewrite app_nil_r, !Z.add_0_r. reflexivity.
  - pose proof (Hrun O ltac:(lia)) as H0. cbn [run snd] in H0.
    rewrite run_shift in Hprod |- *. cbn [fst snd] in Hprod |- *.
    rewrite forallb_app in Hprod. apply andb_true_iff in Hprod.
    destruct Hprod as [Hprod Hr]. cbn [forallb] in Hr.
    rewrite rev_app_distr. cbn [rev app].
    change (S n + fuel)%nat with (S (n + fuel)). cbn [graph.run_loop].
    rewrite H0. cbn [negb].
    destruct (tick w) as [r w1] eqn:Ht. cbn [fst snd] in *.
    destruct r as [v|e|]; [|discriminate Hr|discriminate Hr].
    change (snapshots (Value v :: rev (fst (run n w1))))
      with (v :: snapshots (rev (fst (run n w1)))).
    cbn [sample_from].
    assert (Hrun1 : forall m, (m < n)%nat -> run_complete (snd (run m w1)) = false).
    { intros m Hm. pose proof (Hrun (S m) ltac:(lia)) as H.
      rewrite run_shift, Ht in H. exact H. }
    assert (Hw : wrap_size_t (i + 1) = i + 1).
    { unfold wrap_size_t. apply Z.mod_small. lia. }
    rewrite Hw.
    destruct (i mod 20 =? 0).
    + cbn [rows_from]. destruct (graph.row g rc v) as [line| |]; cbn [bind];
        try reflexivity.
      assert (Hwr : wrap_size_t (rc + 1) = rc + 1).
      { unfold wrap_size_t. apply Z.mod_small. lia. }
      rewrite Hwr. rewrite (IH w1 (i + 1) (rc + 1)) by (auto; lia).
      change graph.dash_interval with 10.
      destruct (rows_from g (rc + 1) _) as [ls| |]; cbn [bind]; try reflexivity.
      cbn [List.length]. rewrite <- app_assoc. cbn [app].
      f_equal; lia.
    + rewrite (IH w1 (i + 1) rc) by (auto; lia).
      destruct (rows_from g rc _) as [ls| |]; try reflexivity.
      f_equal; lia.
Qed.

(** X19.  [graph::run] draws one line for every twentieth call of [tick],
    beginning with the first.  When the first [n] calls all produce a
    snapshot and the run is complete after the last of them and not before,
    the lines are those of the snapshots number 0, 20, 40, ... in order,
    the line number [k] showing the time when [k] is a multiple of ten. *)
Theorem X19_run_draws_every_twentieth (g : graph.graph D) (n fuel : nat) :
  Z.of_nat n < SIZE_MAX1 -> (n < fuel)%nat ->
  forallb produced (fst (run n (graph.w_ g))) = true ->
  forallb (fun m => negb (run_complete (snd (run m (graph.w_ g))))) (seq 0 n)
  = true ->
  run_complete (snd (run n (graph.w_ g))) = true ->
  graph.run_lines fuel g =
  Some (rows_from g 0
          (sample_from 0 (snapshots (rev (fst (run n (graph.w_ g))))))).
Proof.
  intros Hn Hfuel Hprod Hrun Hend. unfold graph.run_lines.
  replace fuel with (n + S (fuel - n - 1))%nat by lia.
  rewrite run_loop_steps; try lia; try assumption.
  - destruct (rows_from g 0 _) as [ls| |]; try reflexivity.
    cbn [graph.run_loop]. rewrite Hend. reflexivity.
  - intros m Hm. rewrite forallb_forall in Hrun.
    apply negb_true_iff, Hrun, in_seq. lia.
Qed.

(** X20.  An exception of [tick] leaves [graph::run]: when the first [n]
    calls produce a snapshot without completing the run and the next call
    throws, [graph::run] throws the same exception, unless a line before
    was left undefined. *)
Theorem X20_run_passes_exception (g : graph.graph D) (n fuel : nat) (e : error) :
  Z.of_nat n < SIZE_MAX1 -> (n < fuel)%nat ->
  forallb produced (fst (run n (graph.w_ g))) = true ->
  forallb (fun m => negb (run_complete (snd (run m (graph.w_ g))))) (seq 0 (S n))
  = true ->
  fst (tick (snd (run n (graph.w_ g)))) = Throw e ->
  graph.run_lines fuel g =
  Some (_ <- rows_from g 0
               (sample_from 0 (snapshots (rev (fst (run n (graph.w_ g)))))) ;;
        Throw e).
Proof.
  intros Hn Hfuel Hprod Hrun Hthrow. unfold graph.run_lines.
  replace fuel with (n + S (fuel - n - 1))%nat by lia.
  rewrite forallb_forall in Hrun.
  rewrite run_loop_steps; try lia; try assumption.
  - destruct (rows_from g 0 _) as [ls| |]; try reflexivity.
    cbn [graph.run_loop bind].
    replace (run_complete (snd (run n (graph.w_ g)))) with false.
    2:{ symmetry. apply negb_true_iff, Hrun, in_seq. lia. }
    cbn [negb]. destruct (tick _) as [r w']. cbn [fst] in Hthrow. subst r.
    reflexivity.
  - intros m Hm. apply negb_true_iff, Hrun, in_seq. lia.
Qed.

End GraphRun.

(** ** The assertions of [test()] *)

(** X22.  [test()] reports no fault on [dynamo::table] and on the graph:
    each of its 35 assertions on [table] is accepted; its loop over the
    engine ends, having compared 51 columns of the population and 51 of
    the pollution ratio with the positions taken from the book, and every
    column is the expected one. *)
Theorem X22_test_reports_no_fault :
  let tests :=
    flat_map (fun e => [(fst e, fst e); (snd e, snd e)])
      (combine graph_test.expected_p_y graph_test.expected_polr_y) in
  forallb (fun a => test.passes (fst a) (snd a)) test.table_assertions = true /\
  graph_test.graph_assertions 1003 = Some (Value tests) /\
  List.length tests = 102%nat /\
  forallb (fun t => graph_test.test_equal (fst t) (snd t)) tests = true.
Proof.
  cbv zeta. split; [vm_compute; reflexivity|].
  split; [vm_compute; reflexivity|].
  split; reflexivity.
Qed.

(** ** The statements at inputs of the program *)

Lemma X1_witness :
  dynamo.table (D:=float) test.t1 (lit 5) (lit 3) (lit 4) (lit 1)
  = Throw DomainRangeError.
Proof.
  apply (proj2 (X1_lookup_exceptions (D:=float) test.t1 (lit 5) (lit 3)
                  (lit 4) (lit 1) DomainRangeError)).
  left. split; [reflexivity | vm_compute; reflexivity].
Defined.

Lemma X9_witness :
  run 3 w_long_step = (repeat (Throw DomainRangeError) 3, w_long_step).
Proof.
  apply (X9_failure_persists (D:=float) w_long_step DomainRangeError
           w_long_step 3).
  vm_compute. reflexivity.
Defined.

Lemma X11_witness :
  fst (tick {| c := with_switch_times (default_constants (D:=float)) (lit 1900)
                      (lit 1900) (lit 1900) (lit 1900) (lit 1900) (lit 1900)
                      (lit 1900);
               j := variables_zero; time_j_exists_ := false |})
  = fst (tick {| c := default_constants; j := variables_zero;
                 time_j_exists_ := false |}).
Proof.
  apply (X11_equal_policies_ignore_switch_times (D:=float)); reflexivity.
Defined.

Lemma X13_witness :
  run_complete
    (snd (run 5 (construct (with_dt (default_constants (D:=float)) (lit 0)))))
  = false.
Proof.
  apply X13_run_never_completes.
  - left. vm_compute. reflexivity.
  - vm_compute. reflexivity.
Defined.

Lemma X16_witness :
  shown graph.fig_42_line_of_ones graph.fig_42_intersects_of_ones 30
    (graph.symbol graph.msl_plotvar).
Proof.
  destruct (X16_row_shows_every_symbol (D:=float) variables_one
              (map snd graph.fig_42_calls) graph.dotted_line
              graph.fig_42_line_of_ones graph.fig_42_intersects_of_ones)
    as [_ [Hshown _]].
  - repeat (apply Forall_cons; [vm_compute; reflexivity|]). apply Forall_nil.
  - vm_compute. reflexivity.
  - vm_compute. reflexivity.
  - destruct (Hshown graph.msl_plotvar) as [y [Hy Hs]].
    + right. left. reflexivity.
    + vm_compute in Hy. injection Hy as <-. apply Hs. vm_compute. reflexivity.
Defined.

Lemma X18_witness : graph.row g_flat 0 variables_one = Undefined.
Proof.
  apply (X18_degenerate_scale g_flat graph.flat_plotvar variables_one).
  - vm_compute. do 5 right. left. reflexivity.
  - left. vm_compute. reflexivity.
Defined.

Lemma X19_witness :
  graph.run_lines 3 g_short =
  Some (rows_from g_short 0
          (sample_from 0 (snapshots (rev (fst (run 2 (graph.w_ g_short))))))).
Proof.
  apply (X19_run_draws_every_twentieth (D:=float) g_short 2 3).
  - vm_compute. reflexivity.
  - lia.
  - vm_compute. reflexivity.
  - vm_compute. reflexivity.
  - vm_compute. reflexivity.
Defined.

Lemma X20_witness :
  graph.run_lines 2 g_long_step =
  Some (_ <- rows_from g_long_step 0
               (sample_from 0
                  (snapshots (rev (fst (run 1 (graph.w_ g_long_step)))))) ;;
        Throw DomainRangeError).
Proof.
  apply (X20_run_passes_exception (D:=float) g_long_step 1 2 DomainRangeError).
  - vm_compute. reflexivity.
  - lia.
  - vm_compute. reflexivity.
  - vm_compute. reflexivity.
  - vm_compute. reflexivity.
Defined.

Lemma X12_witness :
  run_complete
    (snd (run 6 (construct (with_endtime (default_constants (D:=float)) (lit 1901)))))
  = true.
Proof.
  pose proof (X12_time_of_snapshots (D:=float)
                (with_endtime default_constants (lit 1901)) 6) as H.
  cbv zeta in H. destruct H as [_ H]. apply H.
  split; [vm_compute; lia | vm_compute; reflexivity].
Defined.

Lemma X17_witness :
  graph.calc_y (D:=float) (lit 0) (lit 0) (lit 8E9) 60 = Value 0.
Proof.
  apply X17_calc_y_lower_bound; vm_compute; reflexivity.
Defined.
